(** * coast-alert: the hotspot clusterer of [HazardMap.tsx]

    A shallow embedding of [calculateHotspots] and of the [nearbyHotspot]
    lookup of [src/components/HazardMap.tsx], with the data model of
    [src/types/hazard.ts], and the properties of the hotspot clustering that
    the specification states about them.

    JavaScript numbers that hold coordinates are IEEE-754 binary64 values,
    taken from the Standard Library's [spec_float] with precision 53 and
    maximal exponent 1024. Array lengths and the quantities derived from them
    ([intensity], [radius], [reportCount]) are integers far below 2^53, on
    which binary64 arithmetic is exact: they are kept in [Z]. *)

From Stdlib Require Import ZArith List String Ascii Bool Lia Permutation.
From Stdlib Require Import SpecFloat DecimalString DecimalPos.
Import ListNotations.

Local Open Scope Z_scope.

(* ================================================================== *)
(** ** JavaScript numbers *)

Module JS.

Definition number : Type := spec_float.

Definition prec : Z := 53.
Definition emax : Z := 1024.

Definition add : number -> number -> number := SFadd prec emax.
Definition sub : number -> number -> number := SFsub prec emax.
Definition mul : number -> number -> number := SFmul prec emax.
Definition div : number -> number -> number := SFdiv prec emax.
Definition ltb : number -> number -> bool := SFltb.

(** An integer literal, or an integer produced by the runtime. *)
Definition ofZ (z : Z) : number := binary_normalize prec emax z 0 false.

(** [Math.floor]: the largest integral number not above [x]; NaN, the
    infinities and both zeros are returned as they are. A finite non-zero
    [x] is [(-1)^s * m * 2^e]; with [0 <= e] it is integral already. *)
Definition Math_floor (x : number) : number :=
  match x with
  | S754_finite s m e =>
      if 0 <=? e then x
      else
        let q := Z.shiftr (Zpos m) (- e) in
        let exact := Z.shiftl q (- e) =? Zpos m in
        if s then SFopp (ofZ (if exact then q else q + 1)) else ofZ q
  | _ => x
  end.

Definition Math_sqrt : number -> number := SFsqrt prec emax.

(** [Math.pow(x, 2)], taken as the correctly rounded square. *)
Definition Math_pow2 (x : number) : number := mul x x.

(** ECMAScript's SameValueZero on numbers: the same value, where [+0] and
    [-0] are one value and NaN is the same as itself. *)
Definition SameValueZero (a b : number) : Prop :=
  a = b \/ (exists s t, a = S754_zero s /\ b = S754_zero t).

Definition posZero : number := S754_zero false.
Definition negZero : number := S754_zero true.

End JS.

Declare Scope num_scope.
Delimit Scope num_scope with num.
Infix "+" := JS.add : num_scope.
Infix "-" := JS.sub : num_scope.
Infix "*" := JS.mul : num_scope.
Infix "/" := JS.div : num_scope.
Infix "<?" := JS.ltb : num_scope.

(** The decimal literals of the source, as the binary64 values nearest to
    them. *)
Definition num_0_1 : JS.number := S754_finite false 7205759403792794 (-56).
Definition num_0_05 : JS.number := S754_finite false 7205759403792794 (-57).
Definition num_2 : JS.number := JS.ofZ 2.

(* ================================================================== *)
(** ** Strings *)

(** [sep] does not occur in [s]. *)
Fixpoint lacks (sep : ascii) (s : string) : bool :=
  match s with
  | EmptyString => true
  | String c s' => negb (Ascii.eqb c sep) && lacks sep s'
  end.

(** A reference rendering of numbers to strings. ECMAScript's
    [Number::toString] prints the shortest decimal that reads back as the
    number; what the clusterer observes of it is only which numbers print
    alike: NaN prints as ["NaN"], both zeros as ["0"], and otherwise two
    numbers print alike only when they are the same number. The rendering
    below prints a finite non-zero number by its sign, its integral
    significand and its binary exponent, and has exactly these properties. *)
Definition digits (p : positive) : string :=
  NilEmpty.string_of_uint (Pos.to_uint p).

Definition signed_digits (z : Z) : string :=
  match z with
  | Z0 => "0"
  | Zpos p => digits p
  | Zneg p => "-" ++ digits p
  end.

Definition finite_ref (s : bool) (m : positive) (e : Z) : string :=
  (if s then "-" else "") ++ digits m ++ "p" ++ signed_digits e.

Definition Number_toString_ref (x : JS.number) : string :=
  match x with
  | S754_nan => "NaN"
  | S754_zero _ => "0"
  | S754_infinity false => "Infinity"
  | S754_infinity true => "-Infinity"
  | S754_finite s m e => finite_ref s m e
  end.

Definition isDigit (c : ascii) : bool :=
  (48 <=? nat_of_ascii c)%nat && (nat_of_ascii c <=? 57)%nat.

(* ================================================================== *)
(** ** Data model ([src/types/hazard.ts], [HazardMap.tsx]) *)

Inductive Severity : Type := low | medium | high | critical.

Inductive Status : Type := pending | verified | rejected.

Definition Severity_eqb (a b : Severity) : bool :=
  match a, b with
  | low, low | medium, medium | high, high | critical, critical => true
  | _, _ => false
  end.

Record Location : Type := mkLocation {
  lat : JS.number;
  lng : JS.number;
  address : option string
}.

Record HazardReport : Type := mkHazardReport {
  id : option string;
  reporterName : string;
  hazardType : string;
  severity : Severity;
  location : Location;
  description : string;
  status : Status;
  userId : string
}.

Record Hotspot : Type := mkHotspot {
  Hotspot_lat : JS.number;
  Hotspot_lng : JS.number;
  intensity : Z;
  radius : Z;
  reportCount : Z
}.

(** A cell of the grid object: [{ lat, lng, reports }]. *)
Record Cell : Type := mkCell {
  Cell_lat : JS.number;
  Cell_lng : JS.number;
  Cell_reports : list HazardReport
}.

(** The grid object [{ [key: string]: Cell }]: its own properties in
    insertion order, which is the order [Object.values] lists them in. Every
    key holds a comma, so no key is an array index (which would be listed
    first) and no key names a property inherited from [Object.prototype]
    (which [grid[key]] would find). *)
Definition Grid : Type := list (string * Cell).

Fixpoint Grid_get (grid : Grid) (key : string) : option Cell :=
  match grid with
  | [] => None
  | (k, c) :: rest => if String.eqb k key then Some c else Grid_get rest key
  end.

(** [grid[key] = c]: an existing property keeps its place, a new one is
    added last. *)
Fixpoint Grid_set (grid : Grid) (key : string) (c : Cell) : Grid :=
  match grid with
  | [] => [(key, c)]
  | (k, c0) :: rest =>
      if String.eqb k key then (k, c) :: rest
      else (k, c0) :: Grid_set rest key c
  end.

Definition Object_values (grid : Grid) : list Cell := map snd grid.

(** *** Errors and component state *)

Inductive JSError : Type := TypeError | InvalidCharacterError.

Inductive result (A : Type) : Type :=
| Ok (a : A)
| Throw (e : JSError).
Arguments Ok {A} a.
Arguments Throw {A} e.

Definition bind {A B : Type} (r : result A) (k : A -> result B) : result B :=
  match r with
  | Ok a => k a
  | Throw e => Throw e
  end.

Notation "x <- r ;; k" := (bind r (fun x => k))
  (at level 61, r at next level, right associativity).

(** [xs.forEach(f)] where the body updates an accumulator and may throw. *)
Fixpoint forEach {A S : Type} (f : S -> A -> result S) (xs : list A) (s : S)
  : result S :=
  match xs with
  | [] => Ok s
  | x :: rest => s' <- f s x ;; forEach f rest s'
  end.

(** The state of the [HazardMap] component that the clusterer reads or
    writes: [useState<Hotspot[]>([])] and the selected report. *)
Record ComponentState : Type := mkState {
  hotspots : list Hotspot;
  selectedReport : option HazardReport
}.


Definition setHotspots (hs : list Hotspot) (st : ComponentState)
  : ComponentState :=
  {| hotspots := hs; selectedReport := selectedReport st |}.

(* ================================================================== *)
(** ** The clusterer *)

Definition gridSize : JS.number := num_0_1.
Definition minReports : Z := 2.

Section Clusterer.

(** The runtime's number-to-string conversion, used by the template
    literal that builds a cell's key. *)
Variable Number_toString : JS.number -> string.

Definition gridLat (report : HazardReport) : JS.number :=
  (JS.Math_floor (lat (location report) / gridSize) * gridSize)%num.

Definition gridLng (report : HazardReport) : JS.number :=
  (JS.Math_floor (lng (location report) / gridSize) * gridSize)%num.

(** [`${gridLat},${gridLng}`] *)
Definition keyOf (gLat gLng : JS.number) : string :=
  (Number_toString gLat ++ "," ++ Number_toString gLng)%string.

Definition cellKey (report : HazardReport) : string :=
  keyOf (gridLat report) (gridLng report).

Definition push (c : Cell) (report : HazardReport) : Cell :=
  {| Cell_lat := Cell_lat c; Cell_lng := Cell_lng c;
     Cell_reports := (Cell_reports c ++ [report])%list |}.

(** The body of [reports.forEach(report => ...)]. Reading [.reports] of
    an absent property is the one step of it that could throw. *)
Definition addReport (grid : Grid) (report : HazardReport) : result Grid :=
  let gLat := gridLat report in
  let gLng := gridLng report in
  let key := keyOf gLat gLng in
  let grid1 :=
    match Grid_get grid key with
    | None =>
        Grid_set grid key
          {| Cell_lat := (gLat + gridSize / num_2)%num;
             Cell_lng := (gLng + gridSize / num_2)%num;
             Cell_reports := [] |}
    | Some _ => grid
    end in
  match Grid_get grid1 key with
  | None => Throw TypeError
  | Some c => Ok (Grid_set grid1 key (push c report))
  end.

Definition buildGrid (reports : list HazardReport) : result Grid :=
  forEach addReport reports [].

Definition some_severity (s : Severity) (rs : list HazardReport) : bool :=
  existsb (fun r => Severity_eqb (severity r) s) rs.

(** The local [severity] of a qualifying cell. *)
Definition cellSeverity (cell : Cell) : Severity :=
  if some_severity critical (Cell_reports cell) then critical
  else if some_severity high (Cell_reports cell) then high
  else medium.

Definition cellCount (cell : Cell) : Z :=
  Z.of_nat (List.length (Cell_reports cell)).

Definition cellHotspot (cell : Cell) : Hotspot :=
  {| Hotspot_lat := Cell_lat cell;
     Hotspot_lng := Cell_lng cell;
     intensity := cellCount cell;
     radius := Z.min (cellCount cell * 2000) 10000;
     reportCount := cellCount cell |}.

(** The body of [Object.values(grid).forEach(cell => ...)]. *)
Definition emitCell (hs : list Hotspot) (cell : Cell) : list Hotspot :=
  if minReports <=? cellCount cell then
    let severity := cellSeverity cell in
    (hs ++ [cellHotspot cell])%list
  else hs.

Definition gridHotspots (grid : Grid) : list Hotspot :=
  fold_left emitCell (Object_values grid) [].

(** The local array [hotspots] that the body of [calculateHotspots]
    builds from [reports] (from [const hotspots = []] to the end of the
    second loop). *)
Definition computeHotspots (reports : list HazardReport)
  : result (list Hotspot) :=
  grid <- buildGrid reports ;;
  Ok (gridHotspots grid).

(** [calculateHotspots]: with no report it returns before anything is
    written; otherwise it ends in [setHotspots(hotspots)]. *)
Definition calculateHotspots (reports : list HazardReport)
    (st : ComponentState) : result ComponentState :=
  if (List.length reports =? 0)%nat then Ok st
  else
    hs <- computeHotspots reports ;;
    Ok (setHotspots hs st).

(** The predicate of [hotspots.find(hotspot => ...)] in the details
    panel, with its local [distance]. *)
Definition distance (report : HazardReport) (hotspot : Hotspot)
  : JS.number :=
  JS.Math_sqrt
    (JS.Math_pow2 (Hotspot_lat hotspot - lat (location report))
     + JS.Math_pow2 (Hotspot_lng hotspot - lng (location report)))%num.

Definition isNearby (report : HazardReport) (hotspot : Hotspot) : bool :=
  (distance report hotspot <? num_0_05)%num.

Definition nearbyHotspot (hs : list Hotspot) (report : HazardReport)
  : option Hotspot :=
  find (isNearby report) hs.

(** The details panel: it is rendered for a selected report only
    ([selectedReport && ...]) and looks the hotspot up in the stored
    hotspots. *)
Definition panelHotspot (st : ComponentState) : option Hotspot :=
  match selectedReport st with
  | None => None
  | Some report => nearbyHotspot (hotspots st) report
  end.

(** *** Notions the properties are stated with *)

(** The reports of [reports] that fall in the cell of key [key], in input
    order. *)
Definition inCell (key : string) (report : HazardReport) : bool :=
  String.eqb (cellKey report) key.

Definition cellMembers (key : string) (reports : list HazardReport)
  : list HazardReport :=
  filter (inCell key) reports.

(** The hotspots of a grid, each with the key of the cell it comes from. *)
Definition emitKeyed (kc : string * Cell) : list (string * Hotspot) :=
  if minReports <=? cellCount (snd kc)
  then [(fst kc, cellHotspot (snd kc))] else [].

Definition keyedHotspots (grid : Grid) : list (string * Hotspot) :=
  flat_map emitKeyed grid.

(** The geometric center of the cell a report falls in. *)
Definition cellCenter (report : HazardReport) : JS.number * JS.number :=
  ((gridLat report + gridSize / num_2)%num,
   (gridLng report + gridSize / num_2)%num).

(** The cell that the reports of key [key] make up: centered where the
    first of them puts it, holding them in input order. *)
Definition cellOf (key : string) (reports : list HazardReport)
  : option Cell :=
  match cellMembers key reports with
  | [] => None
  | first :: rest =>
      Some {| Cell_lat := fst (cellCenter first);
              Cell_lng := snd (cellCenter first);
              Cell_reports := first :: rest |}
  end.

(** [grid] is the grid object of [reports]: one property per cell that
    has a report, holding that cell. *)
Definition GridOf (reports : list HazardReport) (grid : Grid) : Prop :=
  NoDup (map fst grid) /\
  forall key, Grid_get grid key = cellOf key reports.

(** Two reports sit in one cell of the grid. *)
Definition shareCell (grid : Grid) (r1 r2 : HazardReport) : Prop :=
  exists key cell,
    In (key, cell) grid /\
    In r1 (Cell_reports cell) /\ In r2 (Cell_reports cell).

(** The hotspots computed from [reports], each with the key of its
    cell. *)
Definition hotspotsByCell (reports : list HazardReport)
  : list (string * Hotspot) :=
  match buildGrid reports with
  | Ok grid => keyedHotspots grid
  | Throw _ => []
  end.

(** How many reports of [reports] fall in the cell of key [key]. *)
Definition cellSize (key : string) (reports : list HazardReport) : Z :=
  Z.of_nat (List.length (cellMembers key reports)).

End Clusterer.

(** What the properties below use of the runtime's number-to-string
    conversion: two numbers print alike exactly when they are the same value
    up to the sign of zero, and no number prints with a comma. *)
Record ToStringLaws (Number_toString : JS.number -> string) : Prop := {
  toString_same : forall a b,
    Number_toString a = Number_toString b <-> JS.SameValueZero a b;
  toString_comma : forall a, lacks "," (Number_toString a) = true
}.

(** The mean of a list of numbers, for comparison with a cell's center; the
    clusterer never computes it. *)
Definition mean (xs : list JS.number) : JS.number :=
  (fold_left JS.add xs JS.posZero / JS.ofZ (Z.of_nat (List.length xs)))%num.

Definition centroid (reports : list HazardReport) : JS.number * JS.number :=
  (mean (map (fun r => lat (location r)) reports),
   mean (map (fun r => lng (location r)) reports)).

(* ================================================================== *)
(** ** The rest of [HazardMap.tsx] *)

(** The string values of the [severity] and [status] unions. *)
Definition Severity_name (s : Severity) : string :=
  match s with
  | low => "low" | medium => "medium" | high => "high"
  | critical => "critical"
  end.

Definition Status_name (s : Status) : string :=
  match s with
  | pending => "pending" | verified => "verified" | rejected => "rejected"
  end.

(** [getIconColor] of [createCustomIcon]. *)
Definition getIconColor (severity : string) : string :=
  if (severity =? "critical")%string then "#dc2626"
  else if (severity =? "high")%string then "#ea580c"
  else if (severity =? "medium")%string then "#d97706"
  else if (severity =? "low")%string then "#16a34a"
  else "#6b7280".

(** [String.prototype.toLowerCase] on the letters A to Z; other bytes are
    kept (the hazard types that the application writes are ASCII). *)
Definition lowerAscii (c : ascii) : ascii :=
  let n := nat_of_ascii c in
  if ((65 <=? n) && (n <=? 90))%nat then ascii_of_nat (n + 32) else c.

Fixpoint toLowerCase (s : string) : string :=
  match s with
  | EmptyString => EmptyString
  | String c s' => String (lowerAscii c) (toLowerCase s')
  end.

(** [getIconSymbol] of [createCustomIcon]. *)
Definition getIconSymbol (hazardType : string) : string :=
  let t := toLowerCase hazardType in
  if (t =? "tsunami")%string then "🌊"
  else if (t =? "storm surge")%string then "💨"
  else if (t =? "high waves")%string then "🌊"
  else if (t =? "flooding")%string then "💧"
  else if (t =? "coastal erosion")%string then "🏖️"
  else if (t =? "abnormal tide")%string then "🌊"
  else "⚠️".

Definition getSeverityColor (severity : string) : string :=
  if (severity =? "critical")%string then "bg-red-500 text-white"
  else if (severity =? "high")%string then "bg-orange-500 text-white"
  else if (severity =? "medium")%string then "bg-yellow-500 text-white"
  else if (severity =? "low")%string then "bg-green-500 text-white"
  else "bg-gray-500 text-white".

(** *** The marker icons *)

(** The double quote. *)
Definition dq : string := String "034" EmptyString.

(** The three fixed parts of the SVG template of [createCustomIcon]. *)
Definition svgHead : string :=
  "
      <svg width=" ++ dq ++ "32" ++ dq ++ " height=" ++ dq ++ "32" ++ dq ++ " viewBox=" ++ dq ++ "0 0 32 32" ++ dq ++ " xmlns=" ++ dq ++ "http://www.w3.org/2000/svg" ++ dq ++ ">
        <circle cx=" ++ dq ++ "16" ++ dq ++ " cy=" ++ dq ++ "16" ++ dq ++ " r=" ++ dq ++ "14" ++ dq ++ " fill=" ++ dq.

Definition svgMiddle : string :=
  dq ++ " stroke=" ++ dq ++ "white" ++ dq ++ " stroke-width=" ++ dq ++ "2" ++ dq ++ "/>
        <text x=" ++ dq ++ "16" ++ dq ++ " y=" ++ dq ++ "20" ++ dq ++ " text-anchor=" ++ dq ++ "middle" ++ dq ++ " font-size=" ++ dq ++ "16" ++ dq ++ " fill=" ++ dq ++ "white" ++ dq ++ ">".

Definition svgTail : string :=
  "</text>
      </svg>
    ".

(** The characters of a string, when all of them are at most U+00FF.
    Strings hold the UTF-8 bytes of the source text: a byte below 128 is its
    own character, the lead bytes 194 and 195 start the characters U+0080 to
    U+00FF, and any other byte starts a character above U+00FF. *)
Fixpoint latin1 (s : string) : option (list nat) :=
  match s with
  | EmptyString => Some []
  | String c rest =>
      let n := nat_of_ascii c in
      if (n <? 128)%nat then option_map (cons n) (latin1 rest)
      else if ((n =? 194) || (n =? 195))%nat then
        match rest with
        | String d rest' =>
            option_map (cons ((n - 194) * 64 + nat_of_ascii d)%nat)
              (latin1 rest')
        | EmptyString => None
        end
      else None
  end.

Definition base64Alphabet : string :=
  "ABCDEFGHIJKLMNOPQRSTUVWXYZabcdefghijklmnopqrstuvwxyz0123456789+/".

Definition base64Digit (n : nat) : string :=
  match String.get n base64Alphabet with
  | Some c => String c EmptyString
  | None => EmptyString
  end.

Fixpoint base64 (bytes : list nat) : string :=
  match bytes with
  | [] => EmptyString
  | [a] =>
      base64Digit (a / 4) ++ base64Digit (a mod 4 * 16) ++ "=="
  | [a; b] =>
      base64Digit (a / 4) ++ base64Digit (a mod 4 * 16 + b / 16)
      ++ base64Digit (b mod 16 * 4) ++ "="
  | a :: b :: c :: rest =>
      base64Digit (a / 4) ++ base64Digit (a mod 4 * 16 + b / 16)
      ++ base64Digit (b mod 16 * 4 + c / 64) ++ base64Digit (c mod 64)
      ++ base64 rest
  end.

(** [btoa]: it throws on a string that holds a character above U+00FF. *)
Definition btoa (s : string) : result string :=
  match latin1 s with
  | Some bytes => Ok (base64 bytes)
  | None => Throw InvalidCharacterError
  end.

Record Icon : Type := mkIcon {
  iconUrl : string;
  iconSize : Z * Z;
  iconAnchor : Z * Z;
  popupAnchor : Z * Z
}.

Definition createCustomIcon (hazardType severity : string) : result Icon :=
  encoded <- btoa (svgHead ++ getIconColor severity ++ svgMiddle
                   ++ getIconSymbol hazardType ++ svgTail) ;;
  Ok {| iconUrl := "data:image/svg+xml;base64," ++ encoded;
        iconSize := (32, 32);
        iconAnchor := (16, 32);
        popupAnchor := (0, -32) |}.

(** The icons of [reports.map(report => <Marker ... icon={...} />)],
    made while the component renders. *)
Definition renderMarkers (reports : list HazardReport) : result (list Icon) :=
  forEach
    (fun icons report =>
       icon <- createCustomIcon (hazardType report)
                 (Severity_name (severity report)) ;;
       Ok (icons ++ [icon]))
    reports [].

(** The component over a sequence of values of its [reports] prop: each
    render makes the marker icons, and only when that has not thrown is the
    render committed and the effect
    [useEffect(() => { calculateHotspots(); }, [reports])] run. An exception
    of a render ends the component. *)
Definition onReports (Number_toString : JS.number -> string)
    (st : ComponentState) (renders : list (list HazardReport))
  : result ComponentState :=
  forEach
    (fun s reports =>
       icons <- renderMarkers reports ;;
       calculateHotspots Number_toString reports s)
    renders st.

(** The decimal digits that a template literal prints for an integral
    number of magnitude below 10^21. *)
Definition integer_digits (x : JS.number) : string :=
  match x with
  | S754_finite s m e =>
      let n := if 0 <=? e then Z.pos m * 2 ^ e else Z.pos m / 2 ^ (- e) in
      signed_digits (if s then - n else n)
  | _ => "0"
  end.

(** [formatTimeAgo(date)] as the source computes it, in binary64, with the
    reading [now] of the clock as an argument. Times are [getTime()] values,
    integral milliseconds. *)
Definition formatTimeAgo_binary64 (now date : Z) : string :=
  let diffInMinutes :=
    JS.Math_floor ((JS.ofZ now - JS.ofZ date) / JS.ofZ (1000 * 60))%num in
  if JS.ltb diffInMinutes (JS.ofZ 1) then "Just now"
  else if JS.ltb diffInMinutes (JS.ofZ 60)
       then integer_digits diffInMinutes ++ " min ago"
  else
    let diffInHours := JS.Math_floor (diffInMinutes / JS.ofZ 60)%num in
    if JS.ltb diffInHours (JS.ofZ 24)
    then integer_digits diffInHours ++ " hour"
         ++ (if JS.ltb (JS.ofZ 1) diffInHours then "s" else "") ++ " ago"
    else
      let diffInDays := JS.Math_floor (diffInHours / JS.ofZ 24)%num in
      integer_digits diffInDays ++ " day"
      ++ (if JS.ltb (JS.ofZ 1) diffInDays then "s" else "") ++ " ago".

Definition plural (n : Z) : string := if 1 <? n then "s" else "".

(** [formatTimeAgo(date)] in exact integer arithmetic, where [Z.div] rounds
    down as [Math.floor] does. It is the function of the source for times of
    magnitude at most 2^50 ms (some 35000 years around 1970): there the
    difference of the two times is exact in binary64, and the binary64
    quotient of an integer below 2^51 by 60000 lies within 2^-18 of the true
    quotient, which is either an integer or at least 1/60000 away from the
    next one, so that its floor is the integer quotient; likewise for the
    divisions by 60 and by 24. Toward the ends of the range of [Date] the
    two differ, and the properties of this function are stated with the
    bound. *)
Definition formatTimeAgo (now date : Z) : string :=
  let diffInMinutes := (now - date) / (1000 * 60) in
  if diffInMinutes <? 1 then "Just now"
  else if diffInMinutes <? 60 then signed_digits diffInMinutes ++ " min ago"
  else
    let diffInHours := diffInMinutes / 60 in
    if diffInHours <? 24
    then signed_digits diffInHours ++ " hour" ++ plural diffInHours ++ " ago"
    else
      let diffInDays := diffInHours / 24 in
      signed_digits diffInDays ++ " day" ++ plural diffInDays ++ " ago".

(** Dates and clock readings on which the two are compared: around each
    change of unit, ahead of the clock, and at the ends of the bound. *)
Definition timeSamples : list (Z * Z) :=
  [(0, 0); (0, 1); (59999, 0); (60000, 0); (119999, 0); (3599999, 0);
   (3600000, 0); (7199999, 0); (7200000, 0); (86399999, 0); (86400000, 0);
   (172799999, 0); (172800000, 0);
   (1700000000000, 1699999940001); (1700000000000, 1699999940000);
   (1700000000000, 1500000000000); (1700000000000, 1700000060000);
   (60000 * 2 ^ 35 - 1, 0); (60000 * 37529996894 - 1, 0);
   (2 ^ 50, - 2 ^ 50); (- 2 ^ 50, 2 ^ 50);
   (2 ^ 50, - 2 ^ 50 + 180001); (2 ^ 50 - 1, - 2 ^ 50 + 59999)].

(** *** The location search *)

Record SearchResult : Type := mkSearchResult {
  SearchResult_lat : JS.number;
  SearchResult_lng : JS.number;
  SearchResult_name : string;
  SearchResult_address : string
}.

(** An element of the JSON array that the geocoder answers with. *)
Record Place : Type := mkPlace {
  Place_lat : string;
  Place_lon : string;
  display_name : string
}.

(** The view of the map behind [mapRef]. *)
Record MapView : Type := mkMapView {
  view_center : JS.number * JS.number;
  view_zoom : Z
}.

Record SearchState : Type := mkSearchState {
  searchQuery : string;
  searchResults : list SearchResult;
  mapRef : option MapView
}.

Definition setSearchQuery (q : string) (st : SearchState) : SearchState :=
  {| searchQuery := q; searchResults := searchResults st;
     mapRef := mapRef st |}.

Definition setSearchResults (rs : list SearchResult) (st : SearchState)
  : SearchState :=
  {| searchQuery := searchQuery st; searchResults := rs;
     mapRef := mapRef st |}.

(** [s.length]: the number of UTF-16 code units of the text whose UTF-8
    bytes the string holds. A continuation byte (128 to 191) adds nothing, the
    lead byte of a four-byte character (240 and above) stands for a surrogate
    pair, any other byte for one unit. *)
Fixpoint utf16Length (s : string) : nat :=
  match s with
  | EmptyString => 0%nat
  | String c rest =>
      let n := nat_of_ascii c in
      ((if (128 <=? n) && (n <? 192) then 0
        else if 240 <=? n then 2 else 1) + utf16Length rest)%nat
  end.

(** [s.split(',')[0]]: what comes before the first comma. *)
Fixpoint firstSegment (s : string) : string :=
  match s with
  | EmptyString => EmptyString
  | String c s' =>
      if Ascii.eqb c "," then EmptyString else String c (firstSegment s')
  end.

Section Search.

(** The runtime's [parseFloat], and the outcome of the request for a query:
    the places of the answer, or nothing when the request, the decoding of
    the answer or the mapping of its elements throws. *)
Variable parseFloat : string -> JS.number.
Variable fetchPlaces : string -> option (list Place).

Definition toSearchResult (result : Place) : SearchResult :=
  {| SearchResult_lat := parseFloat (Place_lat result);
     SearchResult_lng := parseFloat (Place_lon result);
     SearchResult_name := firstSegment (display_name result);
     SearchResult_address := display_name result |}.

(** [searchLocation], one call taken to its end. [query.length] counts
    UTF-16 code units, not bytes and not characters. *)
Definition searchLocation (query : string) (st : SearchState) : SearchState :=
  if (utf16Length query <? 3)%nat then setSearchResults [] st
  else
    match fetchPlaces query with
    | Some results => setSearchResults (map toSearchResult results) st
    | None => st
    end.

Definition handleSearch (query : string) (st : SearchState) : SearchState :=
  searchLocation query (setSearchQuery query st).

Definition handleSearchResultClick (result : SearchResult) (st : SearchState)
  : SearchState :=
  let st1 :=
    match mapRef st with
    | Some _ =>
        {| searchQuery := searchQuery st; searchResults := searchResults st;
           mapRef :=
             Some {| view_center :=
                       (SearchResult_lat result, SearchResult_lng result);
                     view_zoom := 12 |} |}
    | None => st
    end in
  setSearchResults [] (setSearchQuery (SearchResult_name result) st1).

End Search.

(** What happens to the search box: the user types, and the request of
    that moment has its outcome; or the user clicks a listed result. *)
Inductive SearchEvent : Type :=
| Typed (query : string) (outcome : option (list Place))
| Clicked (result : SearchResult).

Definition searchStep (parseFloat : string -> JS.number) (st : SearchState)
    (ev : SearchEvent) : SearchState :=
  match ev with
  | Typed query outcome => handleSearch parseFloat (fun _ => outcome) query st
  | Clicked result => handleSearchResultClick result st
  end.

Definition runSearch (parseFloat : string -> JS.number) (st : SearchState)
    (evs : list SearchEvent) : SearchState :=
  fold_left (searchStep parseFloat) evs st.

(** The search box at mount: an empty query, no results, no map yet. *)
Definition initialSearch : SearchState :=
  {| searchQuery := ""; searchResults := []; mapRef := None |}.

(* ================================================================== *)
(** ** The caller: [Dashboard.tsx] *)

(** [new Set(values)] and [set.add(value)]: the values in the order of
    their first insertion. *)
Definition Set_add (set : list string) (value : string) : list string :=
  if existsb (String.eqb value) set then set else set ++ [value].

Definition Set_from (values : list string) : list string :=
  fold_left Set_add values [].

Module Dashboard.

Record MapFilters : Type := mkMapFilters {
  filter_severity : string;
  filter_status : string;
  filter_hazardType : string
}.

Definition initialFilters : MapFilters :=
  {| filter_severity := "all"; filter_status := "all";
     filter_hazardType := "all" |}.

(** The predicate of [allReports.filter(report => ...)]. *)
Definition passesFilters (mapFilters : MapFilters) (report : HazardReport)
  : bool :=
  if negb (filter_severity mapFilters =? "all")%string
     && negb (Severity_name (severity report)
              =? filter_severity mapFilters)%string
  then false
  else if negb (filter_status mapFilters =? "all")%string
          && negb (Status_name (status report)
                   =? filter_status mapFilters)%string
  then false
  else if negb (filter_hazardType mapFilters =? "all")%string
          && negb (hazardType report =? filter_hazardType mapFilters)%string
  then false
  else true.

Definition filteredReports (mapFilters : MapFilters)
    (allReports : list HazardReport) : list HazardReport :=
  filter (passesFilters mapFilters) allReports.


(** The dashboard's own [getSeverityColor], used for the recent reports. *)
Definition getSeverityColor (severity : string) : string :=
  if (severity =? "high")%string then "bg-alert text-alert-foreground"
  else if (severity =? "medium")%string then "bg-yellow-500 text-white"
  else if (severity =? "low")%string
       then "bg-secondary text-secondary-foreground"
  else "bg-muted text-muted-foreground".

End Dashboard.

(** The labels of the hazard types of the report form
    ([ReportHazard.tsx]). *)
Definition hazardTypes : list string :=
  ["Tsunami Warning"; "High Waves"; "Storm Surge"; "Coastal Flooding";
   "Unusual Tide Patterns"; "Strong Currents"; "Debris in Water";
   "Other"]%string.

(** [s.replace(/\s+/g, '-')] on ASCII text: every run of white space
    becomes one hyphen. [inRun] tells that the character before was white
    space. *)
Definition isSpace (c : ascii) : bool :=
  let n := nat_of_ascii c in
  ((n =? 32) || ((9 <=? n) && (n <=? 13)))%nat.

Fixpoint replaceSpacesFrom (inRun : bool) (s : string) : string :=
  match s with
  | EmptyString => EmptyString
  | String c rest =>
      if isSpace c then
        if inRun then replaceSpacesFrom true rest
        else String "-" (replaceSpacesFrom true rest)
      else String c (replaceSpacesFrom false rest)
  end.

(** The value of the [SelectItem] of a label, which is the hazard type
    that a report made with the form carries:
    [type.toLowerCase().replace(/\s+/g, '-')]. *)
Definition selectValue (type : string) : string :=
  replaceSpacesFrom false (toLowerCase type).

(** *** Notions the further properties are stated with *)

Definition totalIntensity (hs : list Hotspot) : Z :=
  fold_right (fun h acc => intensity h + acc) 0 hs.

Definition gridTotal (grid : Grid) : nat :=
  list_sum (map (fun kc => List.length (Cell_reports (snd kc))) grid).

(** The reports held by the cells of a grid, cell after cell. *)
Definition gridReports (grid : Grid) : list HazardReport :=
  List.concat (map Cell_reports (Object_values grid)).

(** The coordinates of a report. *)
Definition coordinates (report : HazardReport) : JS.number * JS.number :=
  (lat (location report), lng (location report)).

Section KeyOrder.

Variable Number_toString : JS.number -> string.

(** The hotspot, if any, of the cell of key [key]. *)
Definition hotspotOfKey (reports : list HazardReport) (key : string)
  : list Hotspot :=
  match cellOf Number_toString key reports with
  | Some cell =>
      if minReports <=? cellCount cell then [cellHotspot cell] else []
  | None => []
  end.

(** The keys of the cells of [reports], in the order in which the cells
    first occur. *)
Definition cellKeys (reports : list HazardReport) : list string :=
  Set_from (map (cellKey Number_toString) reports).

End KeyOrder.

(* ================================================================== *)
(** ** Sample inputs *)

Definition reportAt (la lo : JS.number) (s : Severity) : HazardReport :=
  {| id := None; reporterName := "reporter"; hazardType := "High Waves";
     severity := s;
     location := {| lat := la; lng := lo; address := None |};
     description := "sample"; status := pending; userId := "user" |}.

Definition num_12_95 : JS.number := S754_finite false 7290201896805990 (-49).
Definition num_12_96 : JS.number := S754_finite false 7295831396340204 (-49).
Definition num_77_55 : JS.number := S754_finite false 5457096110977843 (-46).
Definition num_77_56 : JS.number := S754_finite false 5457799798419620 (-46).
Definition num_0_04 : JS.number := S754_finite false 5764607523034235 (-57).
Definition num_1 : JS.number := JS.ofZ 1.

(** Two reports of one 0.1-degree cell, one of them critical. *)
Definition twoReports : list HazardReport :=
  [reportAt num_12_95 num_77_55 critical; reportAt num_12_96 num_77_56 low].

(** The same two places, both reports of low severity. *)
Definition twoLow : list HazardReport :=
  [reportAt num_12_95 num_77_55 low; reportAt num_12_96 num_77_56 low].

(** Six low-severity reports of one cell. *)
Definition sixLow : list HazardReport :=
  repeat (reportAt num_12_95 num_77_55 low) 6.

(** A report at latitude [-0] and one at latitude [0.05]. *)
Definition aroundZero : list HazardReport :=
  [reportAt JS.negZero JS.posZero low; reportAt num_0_05 JS.posZero low].

Definition hotspotAt (la lo : JS.number) (n : Z) : Hotspot :=
  {| Hotspot_lat := la; Hotspot_lng := lo; intensity := n;
     radius := Z.min (n * 2000) 10000; reportCount := n |}.

(** The cell of [twoReports] and of [sixLow]: its key under the reference
    rendering, and its center. *)
Definition sampleKey : string :=
  Eval vm_compute in
    cellKey Number_toString_ref (reportAt num_12_95 num_77_55 critical).

Definition sampleCenterLat : JS.number :=
  S754_finite false 7290201896805991 (-49).
Definition sampleCenterLng : JS.number :=
  S754_finite false 5457096110977843 (-46).

Definition twoReportsHotspot : Hotspot :=
  hotspotAt sampleCenterLat sampleCenterLng 2.

Definition sixLowHotspot : Hotspot :=
  hotspotAt sampleCenterLat sampleCenterLng 6.

Definition sixLowGrid : Grid :=
  [(sampleKey,
    {| Cell_lat := sampleCenterLat; Cell_lng := sampleCenterLng;
       Cell_reports := sixLow |})].

Definition aroundZeroGrid : Grid :=
  [("0,0"%string,
    {| Cell_lat := num_0_05; Cell_lng := num_0_05;
       Cell_reports := aroundZero |})].

(** A string of bytes below 128 only. *)
Fixpoint asciiOnly (s : string) : bool :=
  match s with
  | EmptyString => true
  | String c rest => (nat_of_ascii c <? 128)%nat && asciiOnly rest
  end.

(** A sequence of renders in which every [reports] prop is empty. *)
Definition allEmpty (renders : list (list HazardReport)) : bool :=
  forallb (fun reports => (List.length reports =? 0)%nat) renders.

(** A number that is neither NaN nor an infinity. *)
Definition Number_isFinite (x : JS.number) : bool :=
  match x with
  | S754_zero _ | S754_finite _ _ _ => true
  | S754_infinity _ | S754_nan => false
  end.

(** Two reports at the location [{ lat: 0, lng: 0 }] that the report form
    starts with, and their hotspot. *)
Definition originReports : list HazardReport :=
  [reportAt JS.posZero JS.posZero low; reportAt JS.posZero JS.posZero high].

Definition originHotspot : Hotspot := hotspotAt num_0_05 num_0_05 2.

Definition criticalOnly : Dashboard.MapFilters :=
  {| Dashboard.filter_severity := "critical";
     Dashboard.filter_status := "all";
     Dashboard.filter_hazardType := "all" |}.

(* ================================================================== *)
(** ** Numbers: checks of the literals and of [Math.floor] *)

Example literals_are_nearest :
  (JS.ofZ 1 / JS.ofZ 10)%num = num_0_1 /\
  (JS.ofZ 5 / JS.ofZ 100)%num = num_0_05 /\
  (gridSize / num_2)%num = num_0_05 /\
  (JS.ofZ 1295 / JS.ofZ 100)%num = num_12_95 /\
  (JS.ofZ 7756 / JS.ofZ 100)%num = num_77_56.
Proof. vm_compute. auto 6. Qed.

Example Math_floor_values :
  JS.Math_floor (JS.ofZ 259 / num_2)%num = JS.ofZ 129 /\
  JS.Math_floor (JS.ofZ 1 / num_2)%num = JS.posZero /\
  JS.Math_floor (JS.ofZ (-1) / num_2)%num = JS.ofZ (-1) /\
  JS.Math_floor (JS.ofZ (-7) / num_2)%num = JS.ofZ (-4) /\
  JS.Math_floor (JS.ofZ (-3)) = JS.ofZ (-3) /\
  JS.Math_floor JS.negZero = JS.negZero /\
  JS.Math_floor S754_nan = S754_nan /\
  JS.Math_floor (num_12_95 / gridSize)%num = JS.ofZ 129 /\
  JS.Math_floor (JS.ofZ (-1295) / JS.ofZ 100 / gridSize)%num = JS.ofZ (-130).
Proof. vm_compute. repeat split. Qed.

(* ================================================================== *)
(** ** Strings and the reference rendering *)

Lemma lacks_append (c : ascii) (s t : string) :
  lacks c (s ++ t) = lacks c s && lacks c t.
Proof.
  induction s as [|a s IH]; simpl; [reflexivity|].
  rewrite IH. now rewrite andb_assoc.
Qed.

(** A separator that occurs in neither prefix splits a string in one way. *)
Lemma split_at_separator (c : ascii) (s1 s2 t1 t2 : string) :
  lacks c s1 = true -> lacks c s2 = true ->
  (s1 ++ String c t1 = s2 ++ String c t2)%string ->
  s1 = s2 /\ t1 = t2.
Proof.
  revert s2.
  induction s1 as [|a s1 IH]; intros [|b s2] H1 H2 E; simpl in *.
  - inversion E. auto.
  - inversion E; subst. rewrite Ascii.eqb_refl in H2. discriminate.
  - inversion E; subst. rewrite Ascii.eqb_refl in H1. discriminate.
  - inversion E; subst.
    apply andb_true_iff in H1 as [_ H1].
    apply andb_true_iff in H2 as [_ H2].
    destruct (IH s2 H1 H2 H3) as [-> ->]. auto.
Qed.

Lemma string_of_uint_lacks (c : ascii) (d : Decimal.uint) :
  isDigit c = false -> lacks c (NilEmpty.string_of_uint d) = true.
Proof.
  intros Hc.
  induction d; cbn [NilEmpty.string_of_uint lacks]; try reflexivity;
    rewrite IHd, andb_true_r;
    apply negb_true_iff, Ascii.eqb_neq; intros <-; discriminate Hc.
Qed.

Lemma digits_lacks (c : ascii) (p : positive) :
  isDigit c = false -> lacks c (digits p) = true.
Proof. intros Hc. now apply string_of_uint_lacks. Qed.

Lemma digits_inj (p q : positive) : digits p = digits q -> p = q.
Proof.
  unfold digits. intros E.
  apply (f_equal NilEmpty.uint_of_string) in E.
  rewrite !NilEmpty.usu in E. injection E as E.
  apply (f_equal Pos.of_uint) in E.
  rewrite !Unsigned.of_to in E. now injection E.
Qed.

Lemma digits_head (p : positive) :
  exists c rest, digits p = String c rest /\ isDigit c = true.
Proof.
  unfold digits. pose proof (Unsigned.to_uint_nonnil p) as Hn.
  destruct (Pos.to_uint p); [contradiction| ..]; simpl; eauto.
Qed.

Lemma digits_not_zero (p : positive) : digits p <> "0"%string.
Proof.
  unfold digits. intros E.
  apply (f_equal NilEmpty.uint_of_string) in E.
  rewrite NilEmpty.usu in E. simpl in E. injection E as E.
  apply (f_equal Pos.of_uint) in E.
  rewrite Unsigned.of_to in E. discriminate E.
Qed.

Lemma digits_not_minus (p : positive) (s : string) :
  digits p <> String "-" s.
Proof.
  destruct (digits_head p) as (c & r & Ep & Hc). rewrite Ep.
  intros E. inversion E; subst. discriminate Hc.
Qed.

Lemma signed_digits_inj (a b : Z) : signed_digits a = signed_digits b -> a = b.
Proof.
  destruct a as [|p|p], b as [|q|q]; simpl; intros E.
  - reflexivity.
  - symmetry in E. now apply digits_not_zero in E.
  - discriminate E.
  - now apply digits_not_zero in E.
  - f_equal. now apply digits_inj.
  - now apply digits_not_minus in E.
  - discriminate E.
  - symmetry in E. now apply digits_not_minus in E.
  - injection E as E. f_equal. now apply digits_inj.
Qed.

Lemma signed_digits_lacks (c : ascii) (z : Z) :
  isDigit c = false -> Ascii.eqb "-" c = false ->
  lacks c (signed_digits z) = true.
Proof.
  intros Hc Hm. destruct z as [|p|p]; cbn [signed_digits].
  - cbn [lacks]. rewrite andb_true_r. apply negb_true_iff, Ascii.eqb_neq.
    intros <-. discriminate Hc.
  - now apply digits_lacks.
  - change ("-" ++ digits p)%string with (String "-" (digits p)).
    cbn [lacks]. rewrite Hm. now rewrite digits_lacks.
Qed.

(** A finite non-zero number is told from the other renderings by the
    ["p"] it holds. *)
Lemma finite_ref_has_p (s : bool) (m : positive) (e : Z) :
  lacks "p" (finite_ref s m e) = false.
Proof.
  unfold finite_ref. rewrite !lacks_append.
  change (lacks "p" "p") with false.
  cbn [andb]. now rewrite !andb_false_r.
Qed.

Lemma finite_ref_inj (s1 s2 : bool) (m1 m2 : positive) (e1 e2 : Z) :
  finite_ref s1 m1 e1 = finite_ref s2 m2 e2 ->
  s1 = s2 /\ m1 = m2 /\ e1 = e2.
Proof.
  unfold finite_ref. intros E.
  assert (Hs : s1 = s2 /\
               (digits m1 ++ "p" ++ signed_digits e1
                = digits m2 ++ "p" ++ signed_digits e2)%string).
  { destruct s1, s2; simpl in E.
    - injection E as E. auto.
    - exfalso. destruct (digits_head m2) as (c & r & Em & Hc).
      rewrite Em in E. simpl in E. inversion E; subst. discriminate Hc.
    - exfalso. destruct (digits_head m1) as (c & r & Em & Hc).
      rewrite Em in E. simpl in E. inversion E; subst. discriminate Hc.
    - auto. }
  destruct Hs as [-> E'].
  apply split_at_separator in E' as [Em Ee];
    try (apply digits_lacks; reflexivity).
  split; [reflexivity|]. split.
  - now apply digits_inj.
  - now apply signed_digits_inj.
Qed.

Lemma Number_toString_ref_finite (s : bool) (m : positive) (e : Z) :
  Number_toString_ref (S754_finite s m e) = finite_ref s m e.
Proof. reflexivity. Qed.

Lemma Number_toString_ref_laws : ToStringLaws Number_toString_ref.
Proof.
  split.
  - intros a b. split.
    + intros E.
      destruct a as [sa|sa| |sa ma ea], b as [sb|sb| |sb mb eb];
        try (right; eauto; fail); try (left; reflexivity);
        try rewrite !Number_toString_ref_finite in E;
        match type of E with
        | finite_ref _ _ _ = finite_ref _ _ _ =>
            apply finite_ref_inj in E as (-> & -> & ->); left; reflexivity
        | finite_ref _ _ _ = _ =>
            apply (f_equal (lacks "p")) in E;
            rewrite finite_ref_has_p in E;
            repeat match goal with b : bool |- _ => destruct b end;
            discriminate E
        | _ = finite_ref _ _ _ =>
            apply (f_equal (lacks "p")) in E;
            rewrite finite_ref_has_p in E;
            repeat match goal with b : bool |- _ => destruct b end;
            discriminate E
        | _ =>
            repeat match goal with b : bool |- _ => destruct b end;
            try discriminate E; left; reflexivity
        end.
    + intros [->|(s & t & -> & ->)]; reflexivity.
  - intros [s|[|]| |s m e]; try reflexivity.
    rewrite Number_toString_ref_finite. unfold finite_ref.
    rewrite !lacks_append, digits_lacks, signed_digits_lacks by reflexivity.
    now destruct s.
Qed.

(* ================================================================== *)
(** ** The grid object *)

Lemma Grid_get_set_same (grid : Grid) (key : string) (c : Cell) :
  Grid_get (Grid_set grid key c) key = Some c.
Proof.
  induction grid as [|[k c0] rest IH]; simpl.
  - now rewrite String.eqb_refl.
  - destruct (String.eqb k key) eqn:E; simpl; rewrite E; auto.
Qed.

Lemma Grid_get_set_other (grid : Grid) (key key' : string) (c : Cell) :
  key <> key' -> Grid_get (Grid_set grid key c) key' = Grid_get grid key'.
Proof.
  intros Hne.
  induction grid as [|[k c0] rest IH]; simpl.
  - apply String.eqb_neq in Hne. now rewrite Hne.
  - destruct (String.eqb k key) eqn:E; simpl.
    + apply String.eqb_eq in E as ->.
      apply String.eqb_neq in Hne. now rewrite Hne.
    + now rewrite IH.
Qed.

Lemma Grid_get_None (grid : Grid) (key : string) :
  Grid_get grid key = None <-> ~ In key (map fst grid).
Proof.
  induction grid as [|[k c0] rest IH]; simpl.
  - tauto.
  - destruct (String.eqb_spec k key) as [->|Hne].
    + split; [discriminate|]. intros H. exfalso. auto.
    + rewrite IH. tauto.
Qed.

Lemma Grid_get_In (grid : Grid) (key : string) (c : Cell) :
  Grid_get grid key = Some c -> In (key, c) grid.
Proof.
  induction grid as [|[k c0] rest IH]; simpl; [discriminate|].
  destruct (String.eqb_spec k key) as [->|Hne].
  - intros [= ->]. now left.
  - intros H. right. auto.
Qed.

Lemma In_Grid_get (grid : Grid) (key : string) (c : Cell) :
  NoDup (map fst grid) -> In (key, c) grid -> Grid_get grid key = Some c.
Proof.
  induction grid as [|[k c0] rest IH]; simpl; [tauto|].
  intros Hnd [E|Hin].
  - injection E as -> ->. now rewrite String.eqb_refl.
  - inversion Hnd as [|? ? Hk Hrest]; subst.
    destruct (String.eqb_spec k key) as [->|Hne].
    + exfalso. apply Hk. now apply (in_map fst) in Hin.
    + auto.
Qed.

Lemma Grid_set_keys_new (grid : Grid) (key : string) (c : Cell) :
  Grid_get grid key = None ->
  map fst (Grid_set grid key c) = map fst grid ++ [key].
Proof.
  induction grid as [|[k c0] rest IH]; simpl; [reflexivity|].
  destruct (String.eqb k key); [discriminate|].
  intros H. simpl. now rewrite IH.
Qed.

Lemma Grid_set_keys_old (grid : Grid) (key : string) (c c0 : Cell) :
  Grid_get grid key = Some c0 ->
  map fst (Grid_set grid key c) = map fst grid.
Proof.
  induction grid as [|[k c1] rest IH]; simpl; [discriminate|].
  destruct (String.eqb k key); [reflexivity|].
  intros H. simpl. now rewrite IH.
Qed.

(* ================================================================== *)
(** ** Building the grid *)

Section GridFacts.

Variable ts : JS.number -> string.

Lemma cellMembers_snoc (key : string) (rs : list HazardReport)
    (r : HazardReport) :
  cellMembers ts key (rs ++ [r])
  = cellMembers ts key rs ++ (if inCell ts key r then [r] else []).
Proof. unfold cellMembers. now rewrite filter_app. Qed.

Lemma cellOf_snoc_other (key : string) (rs : list HazardReport)
    (r : HazardReport) :
  cellKey ts r <> key -> cellOf ts key (rs ++ [r]) = cellOf ts key rs.
Proof.
  intros Hne. unfold cellOf. rewrite cellMembers_snoc.
  unfold inCell. apply String.eqb_neq in Hne. rewrite Hne. now rewrite app_nil_r.
Qed.

Lemma cellOf_snoc_same (rs : list HazardReport) (r : HazardReport) :
  cellOf ts (cellKey ts r) (rs ++ [r])
  = match cellOf ts (cellKey ts r) rs with
    | Some c => Some (push c r)
    | None =>
        Some {| Cell_lat := fst (cellCenter r);
                Cell_lng := snd (cellCenter r);
                Cell_reports := [r] |}
    end.
Proof.
  unfold cellOf. rewrite cellMembers_snoc.
  unfold inCell. rewrite String.eqb_refl.
  destruct (cellMembers ts (cellKey ts r) rs); reflexivity.
Qed.

Lemma GridOf_nil : GridOf ts [] [].
Proof. split; [constructor | reflexivity]. Qed.

(** One round of the first loop keeps the grid in step with the reports
    read so far, and does not throw. *)
Lemma addReport_GridOf (rs : list HazardReport) (grid : Grid)
    (r : HazardReport) :
  GridOf ts rs grid ->
  exists grid',
    addReport ts grid r = Ok grid' /\ GridOf ts (rs ++ [r]) grid'.
Proof.
  intros [Hnd Hget]. unfold addReport.
  fold (cellKey ts r).
  pose proof (cellOf_snoc_same rs r) as Hsame.
  destruct (Grid_get grid (cellKey ts r)) as [c|] eqn:E.
  - rewrite E. eexists. split; [reflexivity|]. split.
    + now rewrite (Grid_set_keys_old _ _ _ _ E).
    + intros key. destruct (String.eqb_spec (cellKey ts r) key) as [<-|Hne].
      * rewrite Grid_get_set_same, Hsame, <- Hget, E. reflexivity.
      * rewrite Grid_get_set_other, cellOf_snoc_other by assumption.
        apply Hget.
  - rewrite Grid_get_set_same. eexists. split; [reflexivity|]. split.
    + rewrite (Grid_set_keys_old _ _ _ _ (Grid_get_set_same _ _ _)).
      rewrite (Grid_set_keys_new _ _ _ E).
      apply NoDup_app; auto.
      * constructor; [tauto | constructor].
      * intros k Hk [<-|[]]. now apply Grid_get_None in E.
    + intros key. destruct (String.eqb_spec (cellKey ts r) key) as [<-|Hne].
      * rewrite Grid_get_set_same, Hsame, <- Hget, E. reflexivity.
      * rewrite !Grid_get_set_other, cellOf_snoc_other by assumption.
        apply Hget.
Qed.

Lemma forEach_addReport_GridOf (rest rs : list HazardReport) (grid : Grid) :
  GridOf ts rs grid ->
  exists grid',
    forEach (addReport ts) rest grid = Ok grid' /\ GridOf ts (rs ++ rest) grid'.
Proof.
  revert rs grid.
  induction rest as [|r rest IH]; intros rs grid H; simpl.
  - exists grid. now rewrite app_nil_r.
  - destruct (addReport_GridOf rs grid r H) as (g1 & -> & H1). simpl.
    destruct (IH _ _ H1) as (g2 & E2 & H2).
    exists g2. split; [assumption|]. now rewrite <- app_assoc in H2.
Qed.

(** The first loop never throws, and leaves the grid of the reports. *)
Lemma buildGrid_GridOf (reports : list HazardReport) :
  exists grid, buildGrid ts reports = Ok grid /\ GridOf ts reports grid.
Proof. exact (forEach_addReport_GridOf reports [] [] GridOf_nil). Qed.

End GridFacts.

(* ================================================================== *)
(** ** Emitting the hotspots *)

Lemma fold_left_emitCell (cells : list Cell) (acc : list Hotspot) :
  fold_left emitCell cells acc
  = acc ++ flat_map (fun c => map snd (emitKeyed (EmptyString, c))) cells.
Proof.
  revert acc. induction cells as [|c cells IH]; intros acc; simpl.
  - now rewrite app_nil_r.
  - rewrite IH. unfold emitCell, emitKeyed. simpl.
    destruct (minReports <=? cellCount c); simpl.
    + now rewrite <- app_assoc.
    + reflexivity.
Qed.

Lemma gridHotspots_keyed (grid : Grid) :
  gridHotspots grid = map snd (keyedHotspots grid).
Proof.
  unfold gridHotspots, keyedHotspots, Object_values.
  rewrite fold_left_emitCell. simpl.
  induction grid as [|[k c] rest IH]; simpl; [reflexivity|].
  rewrite map_app, <- IH. f_equal.
  unfold emitKeyed. simpl. now destruct (minReports <=? cellCount c).
Qed.

Lemma In_keyedHotspots (grid : Grid) (key : string) (h : Hotspot) :
  In (key, h) (keyedHotspots grid) <->
  exists c, In (key, c) grid /\ minReports <= cellCount c /\ h = cellHotspot c.
Proof.
  unfold keyedHotspots. rewrite in_flat_map. split.
  - intros ([k c] & Hin & Hemit). unfold emitKeyed in Hemit. simpl in Hemit.
    destruct (Z.leb_spec minReports (cellCount c)) as [Hle|Hlt].
    + destruct Hemit as [[= -> <-]|[]]. eauto.
    + destruct Hemit.
  - intros (c & Hin & Hle & ->). exists (key, c). split; [assumption|].
    unfold emitKeyed. simpl. apply Z.leb_le in Hle. rewrite Hle. now left.
Qed.

Lemma keyedHotspots_keys (grid : Grid) (key : string) :
  In key (map fst (keyedHotspots grid)) ->  In key (map fst grid).
Proof.
  rewrite !in_map_iff. intros ([k h] & <- & Hin).
  apply In_keyedHotspots in Hin as (c & Hin & _).
  exists (k, c). auto.
Qed.

Lemma keyedHotspots_NoDup (grid : Grid) :
  NoDup (map fst grid) -> NoDup (map fst (keyedHotspots grid)).
Proof.
  induction grid as [|[k c] rest IH]; simpl; [constructor|].
  intros Hnd. inversion Hnd as [|? ? Hk Hrest]; subst.
  change (keyedHotspots ((k, c) :: rest))
    with (emitKeyed (k, c) ++ keyedHotspots rest).
  unfold emitKeyed. simpl. destruct (minReports <=? cellCount c); simpl; auto.
  constructor; auto.
  intros Hin. apply Hk. now apply keyedHotspots_keys.
Qed.

Section HotspotFacts.

Variable ts : JS.number -> string.

Lemma cellOf_size (key : string) (reports : list HazardReport) (c : Cell) :
  cellOf ts key reports = Some c ->
  Cell_reports c = cellMembers ts key reports /\
  cellCount c = cellSize ts key reports.
Proof.
  unfold cellOf, cellSize, cellCount.
  destruct (cellMembers ts key reports) as [|first rest] eqn:E;
    [discriminate|].
  intros [= <-]. simpl. auto.
Qed.

Lemma cellOf_None (key : string) (reports : list HazardReport) :
  cellOf ts key reports = None -> cellSize ts key reports = 0.
Proof.
  unfold cellOf, cellSize.
  destruct (cellMembers ts key reports); [reflexivity|discriminate].
Qed.

(** [computeHotspots] never throws; its hotspots are those of the grid of
    the reports, in the order of the grid's properties. *)
Lemma computeHotspots_byCell (reports : list HazardReport) :
  exists grid,
    buildGrid ts reports = Ok grid /\ GridOf ts reports grid /\
    hotspotsByCell ts reports = keyedHotspots grid /\
    computeHotspots ts reports = Ok (map snd (hotspotsByCell ts reports)).
Proof.
  destruct (buildGrid_GridOf ts reports) as (grid & E & H).
  exists grid. unfold computeHotspots, hotspotsByCell. rewrite E. simpl.
  now rewrite gridHotspots_keyed.
Qed.

(** A keyed hotspot is the hotspot of the cell of its key, and that cell
    has at least [minReports] reports. *)
Lemma In_hotspotsByCell (reports : list HazardReport) (key : string)
    (h : Hotspot) :
  In (key, h) (hotspotsByCell ts reports) <->
  exists c, cellOf ts key reports = Some c /\
            minReports <= cellSize ts key reports /\ h = cellHotspot c.
Proof.
  destruct (computeHotspots_byCell reports) as (grid & _ & [Hnd Hget] & -> & _).
  rewrite In_keyedHotspots. split.
  - intros (c & Hin & Hle & ->). exists c.
    apply In_Grid_get in Hin; [|assumption]. rewrite Hget in Hin.
    destruct (cellOf_size _ _ _ Hin) as [_ <-]. auto.
  - intros (c & Hc & Hle & ->). exists c.
    destruct (cellOf_size _ _ _ Hc) as [_ Hsize].
    rewrite <- Hget in Hc. apply Grid_get_In in Hc.
    rewrite Hsize. auto.
Qed.

Lemma hotspotsByCell_NoDup (reports : list HazardReport) :
  NoDup (map fst (hotspotsByCell ts reports)).
Proof.
  destruct (computeHotspots_byCell reports) as (grid & _ & [Hnd _] & -> & _).
  now apply keyedHotspots_NoDup.
Qed.

End HotspotFacts.

(* ================================================================== *)
(** ** The state written by [calculateHotspots] *)

Section StateFacts.

Variable ts : JS.number -> string.

Lemma calculateHotspots_nonempty (reports : list HazardReport)
    (st : ComponentState) :
  reports <> [] ->
  calculateHotspots ts reports st
  = Ok (setHotspots (map snd (hotspotsByCell ts reports)) st).
Proof.
  intros Hne. unfold calculateHotspots.
  destruct reports as [|r rest]; [contradiction|]. simpl.
  destruct (computeHotspots_byCell ts (r :: rest)) as (_ & _ & _ & _ & ->).
  reflexivity.
Qed.

Lemma calculateHotspots_nil (st : ComponentState) :
  calculateHotspots ts [] st = Ok st.
Proof. reflexivity. Qed.

Lemma calculateHotspots_total (reports : list HazardReport)
    (st : ComponentState) :
  exists st', calculateHotspots ts reports st = Ok st'.
Proof.
  destruct reports as [|r rest].
  - eexists. apply calculateHotspots_nil.
  - eexists. apply calculateHotspots_nonempty. discriminate.
Qed.

(** A hotspot of the output comes from a cell with enough reports. *)
Lemma In_computeHotspots (reports : list HazardReport)
    (hs : list Hotspot) (h : Hotspot) :
  computeHotspots ts reports = Ok hs -> In h hs ->
  exists key c,
    In (key, h) (hotspotsByCell ts reports) /\
    cellOf ts key reports = Some c /\
    minReports <= cellSize ts key reports /\ h = cellHotspot c.
Proof.
  destruct (computeHotspots_byCell ts reports) as (_ & _ & _ & _ & ->).
  intros [= <-] Hin. apply in_map_iff in Hin as ([key h'] & <- & Hin).
  pose proof Hin as Hin'.
  apply In_hotspotsByCell in Hin as (c & Hc & Hle & ->).
  exists key, c. auto.
Qed.

(** C10: called with no report, [calculateHotspots] returns before it
    writes the hotspot state, which is left as it was, whatever it holds: so
    hotspots computed from a non-empty report set and stored are still the
    stored ones after a call with the empty collection. The empty collection
    is the only input on which the call leaves every state as it was. *)
Theorem calculateHotspots_empty_frame :
  (forall st, calculateHotspots ts [] st = Ok st) /\
  (forall reports hs st,
      computeHotspots ts reports = Ok hs ->
      calculateHotspots ts [] (setHotspots hs st) = Ok (setHotspots hs st) /\
      hotspots (setHotspots hs st) = hs) /\
  (forall reports,
      (forall st, calculateHotspots ts reports st = Ok st) <-> reports = []).
Proof.
  split; [reflexivity|]. split; [intros reports hs st _; split; reflexivity|].
  intros reports. split; [|intros ->; reflexivity].
  intros H. destruct reports as [|r rest]; [reflexivity|]. exfalso.
  set (hs := map snd (hotspotsByCell ts (r :: rest))).
  set (st := {| hotspots := hotspotAt JS.posZero JS.posZero 0 :: hs;
                selectedReport := None |}).
  specialize (H st).
  rewrite calculateHotspots_nonempty in H by discriminate.
  injection H as H. fold hs in H.
  apply (f_equal (@List.length _)) in H. simpl in H. lia.
Qed.

(** C9: neither operation raises an error, whatever the coordinates of
    the reports (so in particular for finite coordinates within the ranges
    of the data model): [calculateHotspots] always ends without throwing,
    what it writes is a function of the reports alone, and the lookup
    [nearbyHotspot] always answers, with one of the given hotspots or with
    none. *)
Theorem clusterer_raises_no_error :
  (forall reports st, exists st', calculateHotspots ts reports st = Ok st') /\
  (forall reports, exists hs,
      computeHotspots ts reports = Ok hs /\
      forall st, reports <> [] ->
                 calculateHotspots ts reports st = Ok (setHotspots hs st)) /\
  (forall hs report,
      nearbyHotspot hs report = None \/
      exists h, nearbyHotspot hs report = Some h /\ In h hs) /\
  (forall st,
      panelHotspot st = None \/
      exists h, panelHotspot st = Some h /\ In h (hotspots st)).
Proof.
  assert (Hfind : forall hs report,
             nearbyHotspot hs report = None \/
             exists h, nearbyHotspot hs report = Some h /\ In h hs).
  { intros hs report. unfold nearbyHotspot.
    destruct (find (isNearby report) hs) as [h|] eqn:E; [right|now left].
    exists h. split; [reflexivity|]. now apply find_some in E. }
  split; [apply calculateHotspots_total|]. split.
  - intros reports.
    destruct (computeHotspots_byCell ts reports) as (_ & _ & _ & _ & E).
    eexists. split; [exact E|].
    intros st Hne. now apply calculateHotspots_nonempty.
  - split; [exact Hfind|].
    intros st. unfold panelHotspot.
    destruct (selectedReport st) as [report|]; [apply Hfind | now left].
Qed.

End StateFacts.

(* ================================================================== *)
(** ** Hotspots and cells *)

Lemma keyed_count {A : Type} (l : list (string * A)) (key : string) :
  NoDup (map fst l) ->
  List.length (filter (fun kh => String.eqb (fst kh) key) l)
  = if in_dec string_dec key (map fst l) then 1%nat else 0%nat.
Proof.
  induction l as [|[k a] l IH]; simpl; [reflexivity|].
  intros Hnd. inversion Hnd as [|? ? Hk Hrest]; subst.
  specialize (IH Hrest).
  destruct (String.eqb_spec k key) as [->|Hne]; simpl.
  - destruct (string_dec key key) as [Heq|]; [|contradiction].
    rewrite IH. destruct (in_dec string_dec key (map fst l)); tauto.
  - rewrite IH. destruct (string_dec k key) as [|Hne']; [contradiction|].
    destruct (in_dec string_dec key (map fst l)); reflexivity.
Qed.

Section CellFacts.

Variable ts : JS.number -> string.

Lemma hotspotsByCell_key (reports : list HazardReport) (key : string) :
  In key (map fst (hotspotsByCell ts reports)) <->
  minReports <= cellSize ts key reports.
Proof.
  rewrite in_map_iff. split.
  - intros ([k h] & <- & Hin).
    apply In_hotspotsByCell in Hin as (c & _ & Hle & _). exact Hle.
  - intros Hle. destruct (cellOf ts key reports) as [c|] eqn:E.
    + exists (key, cellHotspot c). split; [reflexivity|].
      apply In_hotspotsByCell. eauto.
    + apply cellOf_None in E. unfold minReports in Hle. lia.
Qed.

(** C3: the hotspots that [computeHotspots] emits are, cell by cell, one
    hotspot for a cell that holds at least [minReports] (= 2) reports and
    none for any other cell; the [intensity] and the [reportCount] of a
    cell's hotspot are the number of reports in the cell. A cell of the grid
    holds the input reports that have its key. *)
Theorem hotspot_iff_minReports (reports : list HazardReport) :
  minReports = 2 /\
  computeHotspots ts reports = Ok (map snd (hotspotsByCell ts reports)) /\
  (exists grid,
      buildGrid ts reports = Ok grid /\
      hotspotsByCell ts reports = keyedHotspots grid /\
      forall key cell,
        In (key, cell) grid ->
        Cell_reports cell = cellMembers ts key reports /\
        cellSize ts key reports = Z.of_nat (List.length (Cell_reports cell))) /\
  (forall key,
      List.length (filter (fun kh => String.eqb (fst kh) key)
                     (hotspotsByCell ts reports))
      = if minReports <=? cellSize ts key reports then 1%nat else 0%nat) /\
  (forall key h,
      In (key, h) (hotspotsByCell ts reports) ->
      intensity h = cellSize ts key reports /\
      reportCount h = cellSize ts key reports).
Proof.
  split; [reflexivity|]. split; [|split; [|split]].
  - now destruct (computeHotspots_byCell ts reports) as (_ & _ & _ & _ & E).
  - destruct (computeHotspots_byCell ts reports)
      as (grid & E & [Hnd Hget] & Ek & _).
    exists grid. split; [exact E|]. split; [exact Ek|].
    intros key cell Hin. apply In_Grid_get in Hin; [|assumption].
    rewrite Hget in Hin. apply cellOf_size in Hin as [Hmem Hsize].
    split; [exact Hmem|]. now rewrite <- Hsize.
  - intros key. rewrite keyed_count by apply hotspotsByCell_NoDup.
    destruct (in_dec string_dec key (map fst (hotspotsByCell ts reports)))
      as [Hin|Hout]; destruct (Z.leb_spec minReports (cellSize ts key reports))
      as [Hle|Hlt]; try reflexivity; exfalso.
    + apply hotspotsByCell_key in Hin. lia.
    + apply Hout, hotspotsByCell_key, Hle.
  - intros key h Hin.
    apply In_hotspotsByCell in Hin as (c & Hc & _ & ->).
    apply cellOf_size in Hc as [_ Hsize]. simpl. auto.
Qed.

(** C4: the radius of an emitted hotspot is the smaller of 2000 meters per
    report and 10000 meters; so it never exceeds 10000, and of two emitted
    hotspots the one of larger intensity has the radius that is not
    smaller. *)
Theorem radius_capped_and_monotone
    (reports reports' : list HazardReport) (hs hs' : list Hotspot)
    (h h' : Hotspot) :
  computeHotspots ts reports = Ok hs -> In h hs ->
  computeHotspots ts reports' = Ok hs' -> In h' hs' ->
  radius h = Z.min (intensity h * 2000) 10000 /\
  radius h <= 10000 /\
  (intensity h <= intensity h' -> radius h <= radius h').
Proof.
  intros E Hin E' Hin'.
  destruct (In_computeHotspots ts _ _ _ E Hin) as (k & c & _ & _ & _ & ->).
  destruct (In_computeHotspots ts _ _ _ E' Hin') as (k' & c' & _ & _ & _ & ->).
  simpl. repeat split; lia.
Qed.

End CellFacts.

(* ================================================================== *)
(** ** The nearby-hotspot lookup *)

Lemma find_first {A : Type} (p : A -> bool) (l : list A) :
  match find p l with
  | Some a =>
      exists before after,
        l = before ++ a :: after /\ p a = true /\
        Forall (fun x => p x = false) before
  | None => Forall (fun x => p x = false) l
  end.
Proof.
  induction l as [|x l IH]; simpl; [constructor|].
  destruct (p x) eqn:Hx.
  - exists [], l. auto.
  - destruct (find p l) as [a|].
    + destruct IH as (before & after & -> & Ha & Hb).
      exists (x :: before), after. auto.
    + auto.
Qed.

(** C7: [nearbyHotspot] answers with the first hotspot, in the order of
    the sequence, whose distance in degrees [sqrt(dlat^2 + dlng^2)] to the
    point is strictly below 0.05, and with none when no hotspot is that
    near. The first such hotspot is returned even when a later one is
    nearer, and a hotspot at distance 0.05 does not count. *)
Theorem nearbyHotspot_first_within_threshold
    (hs : list Hotspot) (report : HazardReport) :
  (forall h,
      isNearby report h
      = (JS.Math_sqrt
           (JS.Math_pow2 (Hotspot_lat h - lat (location report))
            + JS.Math_pow2 (Hotspot_lng h - lng (location report)))
         <? num_0_05)%num) /\
  match nearbyHotspot hs report with
  | Some h =>
      exists before after,
        hs = before ++ h :: after /\ isNearby report h = true /\
        Forall (fun x => isNearby report x = false) before
  | None => Forall (fun x => isNearby report x = false) hs
  end /\
  (let origin := reportAt JS.posZero JS.posZero low in
   let far := hotspotAt num_0_04 JS.posZero 2 in
   let near := hotspotAt JS.posZero JS.posZero 3 in
   let edge := hotspotAt num_0_05 JS.posZero 2 in
   nearbyHotspot [far; near] origin = Some far /\
   (distance origin near <? distance origin far)%num = true /\
   distance origin edge = num_0_05 /\
   nearbyHotspot [edge] origin = None).
Proof.
  split; [reflexivity|]. split.
  - apply find_first.
  - vm_compute. auto.
Qed.

(* ================================================================== *)
(** ** Cells and floored coordinates *)

Lemma SameValueZero_center (a b : JS.number) :
  JS.SameValueZero a b ->
  (a + gridSize / num_2)%num = (b + gridSize / num_2)%num.
Proof.
  intros [->|(s & t & -> & ->)]; [reflexivity|].
  now destruct s, t.
Qed.

Lemma Permutation_filter_compat {A : Type} (p : A -> bool) (l l' : list A) :
  Permutation l l' -> Permutation (filter p l) (filter p l').
Proof.
  induction 1 as [|x l l' _ IH|x y l|l l' l'' _ IH1 _ IH2]; simpl.
  - constructor.
  - destruct (p x); auto.
  - destruct (p x), (p y); auto. apply perm_swap.
  - now transitivity (filter p l').
Qed.

Lemma cellHotspot_ext (c c' : Cell) :
  (Cell_lat c', Cell_lng c') = (Cell_lat c, Cell_lng c) ->
  List.length (Cell_reports c') = List.length (Cell_reports c) ->
  cellHotspot c' = cellHotspot c.
Proof.
  unfold cellHotspot, cellCount. intros [= -> ->] ->. reflexivity.
Qed.

Section FloorFacts.

Variable ts : JS.number -> string.
Hypothesis laws : ToStringLaws ts.

Lemma keyOf_same (a b a' b' : JS.number) :
  keyOf ts a b = keyOf ts a' b' <->
  JS.SameValueZero a a' /\ JS.SameValueZero b b'.
Proof.
  unfold keyOf. rewrite <- !(toString_same ts laws). split.
  - intros E. apply (split_at_separator ","%char); auto;
      apply (toString_comma ts laws).
  - now intros [-> ->].
Qed.

Lemma cellKey_center (r1 r2 : HazardReport) :
  cellKey ts r1 = cellKey ts r2 -> cellCenter r1 = cellCenter r2.
Proof.
  unfold cellKey. intros E. apply keyOf_same in E as [Hlat Hlng].
  unfold cellCenter.
  now rewrite (SameValueZero_center _ _ Hlat), (SameValueZero_center _ _ Hlng).
Qed.

Lemma In_cellMembers (key : string) (reports : list HazardReport)
    (r : HazardReport) :
  In r (cellMembers ts key reports) <-> In r reports /\ cellKey ts r = key.
Proof.
  unfold cellMembers, inCell. rewrite filter_In.
  now rewrite String.eqb_eq.
Qed.

(** The center of a cell is the cell center of each of its reports. *)
Lemma cellOf_center (key : string) (reports : list HazardReport) (c : Cell)
    (r : HazardReport) :
  cellOf ts key reports = Some c -> In r reports -> cellKey ts r = key ->
  (Cell_lat c, Cell_lng c) = cellCenter r.
Proof.
  unfold cellOf.
  destruct (cellMembers ts key reports) as [|first rest] eqn:E; [discriminate|].
  intros Hc Hin Hkey. transitivity (cellCenter first).
  { injection Hc as <-. reflexivity. }
  apply cellKey_center. rewrite Hkey.
  assert (H : In first (cellMembers ts key reports)) by (rewrite E; now left).
  now apply In_cellMembers in H.
Qed.

Lemma cellOf_member (reports : list HazardReport) (r : HazardReport) :
  In r reports ->
  exists c, cellOf ts (cellKey ts r) reports = Some c /\
            In r (Cell_reports c).
Proof.
  intros Hin.
  assert (H : In r (cellMembers ts (cellKey ts r) reports))
    by now apply In_cellMembers.
  unfold cellOf.
  destruct (cellMembers ts (cellKey ts r) reports) as [|first rest];
    [destruct H|].
  eexists. split; [reflexivity|exact H].
Qed.

Lemma shareCell_key (reports : list HazardReport) (grid : Grid)
    (r1 r2 : HazardReport) :
  GridOf ts reports grid -> In r1 reports -> In r2 reports ->
  (shareCell grid r1 r2 <-> cellKey ts r1 = cellKey ts r2).
Proof.
  intros [Hnd Hget] H1 H2. split.
  - intros (key & cell & Hcell & Hr1 & Hr2).
    apply In_Grid_get in Hcell; [|assumption]. rewrite Hget in Hcell.
    apply cellOf_size in Hcell as [Hmem _]. rewrite Hmem in Hr1, Hr2.
    apply In_cellMembers in Hr1 as [_ ->].
    apply In_cellMembers in Hr2 as [_ E]. now rewrite E.
  - intros E. destruct (cellOf_member reports r1 H1) as (c & Hc & Hr1).
    exists (cellKey ts r1), c. split; [|split; [assumption|]].
    + apply Grid_get_In. now rewrite Hget.
    + apply cellOf_size in Hc as [-> _]. now apply In_cellMembers.
Qed.

(** C6: the center of every hotspot in the result of [computeHotspots]
    is the geometric center of its grid cell: for every report [r'] of the
    cell it is [floor(lat / 0.1) * 0.1 + 0.1 / 2] and
    [floor(lng / 0.1) * 0.1 + 0.1 / 2] of that report, the cell of a report
    being the reports with the same floored coordinates; and every cell with
    at least two reports has its hotspot there. It is not the centroid of
    the reports: the hotspot of [twoReports] is centered elsewhere than at
    their mean position. *)
Theorem hotspot_center_is_cell_center
    (reports : list HazardReport) (hs : list Hotspot) :
  computeHotspots ts reports = Ok hs ->
  let corner x := (JS.Math_floor (x / num_0_1) * num_0_1)%num in
  let sameCell r r' :=
    JS.SameValueZero (corner (lat (location r'))) (corner (lat (location r)))
    /\ JS.SameValueZero (corner (lng (location r')))
         (corner (lng (location r))) in
  let centered h r :=
    Hotspot_lat h = (corner (lat (location r)) + num_0_1 / num_2)%num /\
    Hotspot_lng h = (corner (lng (location r)) + num_0_1 / num_2)%num in
  (forall h,
      In h hs ->
      exists r,
        In r reports /\
        intensity h = cellSize ts (cellKey ts r) reports /\
        forall r', In r' reports -> sameCell r r' -> centered h r') /\
  (forall r,
      In r reports -> minReports <= cellSize ts (cellKey ts r) reports ->
      exists h,
        In h hs /\ centered h r /\
        intensity h = cellSize ts (cellKey ts r) reports) /\
  (exists h2,
      computeHotspots Number_toString_ref twoReports = Ok [h2] /\
      Hotspot_lat h2 <> fst (centroid twoReports) /\
      Hotspot_lng h2 <> snd (centroid twoReports)).
Proof.
  intros E. cbv zeta. split; [|split].
  - intros h Hin.
    destruct (In_computeHotspots ts _ _ _ E Hin)
      as (key & c & _ & Hc & _ & ->).
    assert (Hfirst : exists r, In r reports /\ cellKey ts r = key).
    { unfold cellOf in Hc.
      destruct (cellMembers ts key reports) as [|first rest] eqn:Em;
        [discriminate|].
      exists first. apply In_cellMembers. rewrite Em. now left. }
    destruct Hfirst as (r & Hr & Hk). exists r. split; [exact Hr|]. split.
    + rewrite Hk. apply cellOf_size in Hc as [_ Hsize]. exact Hsize.
    + intros r' Hr' Hsame.
      assert (Hk' : cellKey ts r' = key).
      { rewrite <- Hk. unfold cellKey. apply keyOf_same. exact Hsame. }
      pose proof (cellOf_center _ _ _ _ Hc Hr' Hk') as Ecen.
      unfold cellCenter in Ecen. injection Ecen as Elat Elng.
      split; [exact Elat | exact Elng].
  - intros r Hr Hle.
    destruct (cellOf_member reports r Hr) as (c & Hc & _).
    exists (cellHotspot c). split; [|split].
    + destruct (computeHotspots_byCell ts reports) as (_ & _ & _ & _ & Ec).
      rewrite Ec in E. injection E as <-.
      apply in_map_iff. exists (cellKey ts r, cellHotspot c).
      split; [reflexivity|]. apply In_hotspotsByCell. eauto.
    + pose proof (cellOf_center _ _ _ _ Hc Hr eq_refl) as Ecen.
      unfold cellCenter in Ecen. injection Ecen as Elat Elng.
      split; [exact Elat | exact Elng].
    + apply cellOf_size in Hc as [_ Hsize]. exact Hsize.
  - eexists. split; [vm_compute; reflexivity|].
    split; vm_compute; discriminate.
Qed.

(** C5, as the code has it: every report is put in the cell keyed by its
    floored coordinates [floor(lat / gridSize) * gridSize] and
    [floor(lng / gridSize) * gridSize]; two reports share a cell exactly
    when both floored values are the same number, [+0] and [-0] being one
    number (they print alike in the key). Floored values that are equal
    bit for bit always share a cell. *)
Theorem same_cell_iff_same_floor
    (reports : list HazardReport) (grid : Grid) (r1 r2 : HazardReport) :
  buildGrid ts reports = Ok grid -> In r1 reports -> In r2 reports ->
  (exists c,
      Grid_get grid (keyOf ts (gridLat r1) (gridLng r1)) = Some c /\
      In r1 (Cell_reports c)) /\
  (shareCell grid r1 r2 <->
   JS.SameValueZero (gridLat r1) (gridLat r2) /\
   JS.SameValueZero (gridLng r1) (gridLng r2)) /\
  (gridLat r1 = gridLat r2 -> gridLng r1 = gridLng r2 ->
   shareCell grid r1 r2).
Proof.
  intros E H1 H2.
  destruct (buildGrid_GridOf ts reports) as (grid' & E' & HG).
  rewrite E in E'. injection E' as <-.
  pose proof (shareCell_key reports grid r1 r2 HG H1 H2) as Hshare.
  split; [|split].
  - destruct (cellOf_member reports r1 H1) as (c & Hc & Hr1).
    exists c. destruct HG as [_ Hget]. rewrite Hget. auto.
  - rewrite Hshare. apply keyOf_same.
  - intros Elat Elng. apply Hshare. unfold cellKey. now rewrite Elat, Elng.
Qed.

(** Under any rendering with the laws, a report at latitude [-0] and one
    at latitude [0.05] have the same key and floored latitudes that differ. *)
Lemma cellKey_identifies_zeros :
  cellKey ts (reportAt JS.negZero JS.posZero low)
  = cellKey ts (reportAt num_0_05 JS.posZero low) /\
  gridLat (reportAt JS.negZero JS.posZero low)
  <> gridLat (reportAt num_0_05 JS.posZero low).
Proof.
  split; [|vm_compute; discriminate].
  apply keyOf_same. split; [right|left]; vm_compute; eauto.
Qed.

Lemma cellOf_permutation (key : string) (reports reports' : list HazardReport)
    (c : Cell) :
  Permutation reports reports' ->
  cellOf ts key reports = Some c ->
  exists c',
    cellOf ts key reports' = Some c' /\
    cellHotspot c' = cellHotspot c /\
    cellSize ts key reports' = cellSize ts key reports.
Proof.
  intros Hperm Hc.
  pose proof (Permutation_filter_compat (inCell ts key) _ _ Hperm) as Hmem.
  fold (cellMembers ts key reports) in Hmem.
  fold (cellMembers ts key reports') in Hmem.
  assert (Hsize : cellSize ts key reports' = cellSize ts key reports).
  { unfold cellSize. now rewrite (Permutation_length Hmem). }
  unfold cellOf in *.
  destruct (cellMembers ts key reports) as [|first rest] eqn:E;
    [discriminate|].
  destruct (cellMembers ts key reports') as [|first' rest'] eqn:E'.
  { apply Permutation_length in Hmem. discriminate Hmem. }
  injection Hc as <-. eexists. split; [reflexivity|].
  split; [|assumption].
  assert (Hk : cellKey ts first = key).
  { assert (H : In first (cellMembers ts key reports)) by (rewrite E; now left).
    now apply In_cellMembers in H. }
  assert (Hk' : cellKey ts first' = key).
  { assert (H : In first' (cellMembers ts key reports'))
      by (rewrite E'; now left).
    now apply In_cellMembers in H. }
  apply cellHotspot_ext.
  - change (cellCenter first' = cellCenter first).
    apply cellKey_center. congruence.
  - symmetry. exact (Permutation_length Hmem).
Qed.

Lemma hotspotsByCell_permutation (reports reports' : list HazardReport)
    (kh : string * Hotspot) :
  Permutation reports reports' ->
  In kh (hotspotsByCell ts reports) -> In kh (hotspotsByCell ts reports').
Proof.
  destruct kh as [key h]. intros Hperm Hin.
  apply In_hotspotsByCell in Hin as (c & Hc & Hle & ->).
  destruct (cellOf_permutation key _ _ c Hperm Hc) as (c' & Hc' & <- & Hs).
  apply In_hotspotsByCell. exists c'. rewrite Hs. auto.
Qed.

(** C8: the hotspots computed from a permutation of the reports are a
    permutation of the hotspots computed from the reports: the multiset of
    hotspots does not depend on the order of the input. Computing again from
    the same reports writes the same hotspot state again. *)
Theorem computeHotspots_permutation
    (reports reports' : list HazardReport) :
  Permutation reports reports' ->
  (exists hs hs',
      computeHotspots ts reports = Ok hs /\
      computeHotspots ts reports' = Ok hs' /\
      Permutation hs hs') /\
  (forall st st1,
      calculateHotspots ts reports st = Ok st1 ->
      calculateHotspots ts reports st1 = Ok st1).
Proof.
  intros Hperm. split.
  - destruct (computeHotspots_byCell ts reports) as (_ & _ & _ & _ & E).
    destruct (computeHotspots_byCell ts reports') as (_ & _ & _ & _ & E').
    eexists. eexists. split; [exact E|]. split; [exact E'|].
    apply Permutation_map. apply NoDup_Permutation.
    + eapply NoDup_map_inv. apply hotspotsByCell_NoDup.
    + eapply NoDup_map_inv. apply hotspotsByCell_NoDup.
    + intros kh. split; apply hotspotsByCell_permutation;
        [assumption | now apply Permutation_sym].
  - intros st st1. destruct reports as [|r rest].
    + now intros [= <-].
    + rewrite !calculateHotspots_nonempty by discriminate.
      intros [= <-]. reflexivity.
Qed.

End FloorFacts.

(* ================================================================== *)
(** ** The scenarios of the specification, under the reference rendering *)

(** Scenario A: two reports of one cell, one critical. *)
Example scenario_two_reports :
  computeHotspots Number_toString_ref twoReports = Ok [twoReportsHotspot] /\
  intensity twoReportsHotspot = 2 /\ radius twoReportsHotspot = 4000.
Proof. vm_compute. auto. Qed.

(** Scenario B: a single report gives no hotspot. *)
Example scenario_single_report :
  computeHotspots Number_toString_ref [reportAt num_12_95 num_77_55 high]
  = Ok [].
Proof. reflexivity. Qed.

(** Scenario C: six low-severity reports of one cell. *)
Example scenario_six_low :
  buildGrid Number_toString_ref sixLow = Ok sixLowGrid /\
  computeHotspots Number_toString_ref sixLow = Ok [sixLowHotspot] /\
  radius sixLowHotspot = 10000 /\
  map (fun kc => cellSeverity (snd kc)) sixLowGrid = [medium].
Proof. vm_compute. auto. Qed.

(** Scenarios D and E: a point at a hotspot's center finds it, a point one
    degree away from every hotspot finds none. *)
Example scenario_lookup :
  nearbyHotspot [twoReportsHotspot]
    (reportAt sampleCenterLat sampleCenterLng low) = Some twoReportsHotspot /\
  nearbyHotspot
    [hotspotAt num_1 JS.posZero 2; hotspotAt JS.posZero num_1 2]
    (reportAt JS.posZero JS.posZero low) = None.
Proof. vm_compute. auto. Qed.

(* ================================================================== *)
(** ** Instances *)

(** A report at latitude [-0] and a report at latitude [0.05] share the
    cell of key ["0,0"], though their floored latitudes [-0] and [+0] differ
    in the sign bit. *)
Lemma zero_floors_share_a_cell :
  let r1 := reportAt JS.negZero JS.posZero low in
  let r2 := reportAt num_0_05 JS.posZero low in
  buildGrid Number_toString_ref [r1; r2] = Ok aroundZeroGrid /\
  shareCell aroundZeroGrid r1 r2 /\
  gridLat r1 = JS.negZero /\ gridLat r2 = JS.posZero /\
  ~ (shareCell aroundZeroGrid r1 r2 <->
     gridLat r1 = gridLat r2 /\ gridLng r1 = gridLng r2).
Proof.
  intros r1 r2.
  assert (Hshare : shareCell aroundZeroGrid r1 r2).
  { eexists. eexists. split; [left; reflexivity|].
    split; [left; reflexivity | right; left; reflexivity]. }
  split; [vm_compute; reflexivity|]. split; [exact Hshare|].
  split; [reflexivity|]. split; [reflexivity|].
  intros [H _]. destruct (H Hshare) as [E _].
  vm_compute in E. discriminate E.
Qed.

(** C2: the emitted hotspot has no dominant severity. For [twoReports],
    a cell with a critical report, the emission computes the severity
    [critical], and for [twoLow], the same cell with low-severity reports
    only, it computes [medium]; both emit the same hotspot, which holds the
    center, the intensity, the radius and the report count and nothing of the
    severity: no function of the emitted hotspot gives the severity computed
    for its cell. *)
Lemma hotspot_carries_no_severity :
  computeHotspots Number_toString_ref twoReports = Ok [twoReportsHotspot] /\
  computeHotspots Number_toString_ref twoLow = Ok [twoReportsHotspot] /\
  (exists grid cell,
      buildGrid Number_toString_ref twoReports = Ok grid /\
      grid = [(sampleKey, cell)] /\ cellSeverity cell = critical) /\
  (exists grid cell,
      buildGrid Number_toString_ref twoLow = Ok grid /\
      grid = [(sampleKey, cell)] /\ cellSeverity cell = medium) /\
  ~ (exists dominantSeverity : Hotspot -> Severity,
        forall reports grid key cell,
          buildGrid Number_toString_ref reports = Ok grid ->
          In (key, cell) grid -> minReports <= cellCount cell ->
          dominantSeverity (cellHotspot cell) = cellSeverity cell).
Proof.
  split; [vm_compute; reflexivity|]. split; [vm_compute; reflexivity|].
  split; [eexists; eexists; vm_compute; repeat split|].
  split; [eexists; eexists; vm_compute; repeat split|].
  intros [dom Hdom].
  pose (c1 := {| Cell_lat := sampleCenterLat; Cell_lng := sampleCenterLng;
                 Cell_reports := twoReports |}).
  pose (c2 := {| Cell_lat := sampleCenterLat; Cell_lng := sampleCenterLng;
                 Cell_reports := twoLow |}).
  assert (H1 : dom (cellHotspot c1) = cellSeverity c1).
  { apply (Hdom twoReports [(sampleKey, c1)] sampleKey c1).
    - vm_compute. reflexivity.
    - left. reflexivity.
    - vm_compute. discriminate. }
  assert (H2 : dom (cellHotspot c2) = cellSeverity c2).
  { apply (Hdom twoLow [(sampleKey, c2)] sampleKey c2).
    - vm_compute. reflexivity.
    - left. reflexivity.
    - vm_compute. discriminate. }
  change (cellHotspot c2) with (cellHotspot c1) in H2.
  rewrite H1 in H2. vm_compute in H2. discriminate H2.
Qed.

(** The hotspots of [twoReports] and of [sixLow]: radius 4000 and radius
    10000. *)
Lemma radius_capped_and_monotone_witness :
  computeHotspots Number_toString_ref twoReports = Ok [twoReportsHotspot] /\
  computeHotspots Number_toString_ref sixLow = Ok [sixLowHotspot] /\
  radius twoReportsHotspot
  = Z.min (intensity twoReportsHotspot * 2000) 10000 /\
  radius twoReportsHotspot <= 10000 /\
  (intensity twoReportsHotspot <= intensity sixLowHotspot ->
   radius twoReportsHotspot <= radius sixLowHotspot).
Proof.
  assert (E2 : computeHotspots Number_toString_ref twoReports
               = Ok [twoReportsHotspot]) by (vm_compute; reflexivity).
  assert (E6 : computeHotspots Number_toString_ref sixLow
               = Ok [sixLowHotspot]) by (vm_compute; reflexivity).
  split; [exact E2|]. split; [exact E6|].
  apply (radius_capped_and_monotone Number_toString_ref twoReports sixLow
           [twoReportsHotspot] [sixLowHotspot]);
    first [assumption | left; reflexivity].
Defined.

(** The two reports of [aroundZero], whose floored latitudes are [-0] and
    [+0]. *)
Lemma same_cell_iff_same_floor_witness :
  let r1 := reportAt JS.negZero JS.posZero low in
  let r2 := reportAt num_0_05 JS.posZero low in
  buildGrid Number_toString_ref aroundZero = Ok aroundZeroGrid /\
  (exists c,
      Grid_get aroundZeroGrid
        (keyOf Number_toString_ref (gridLat r1) (gridLng r1)) = Some c /\
      In r1 (Cell_reports c)) /\
  (shareCell aroundZeroGrid r1 r2 <->
   JS.SameValueZero (gridLat r1) (gridLat r2) /\
   JS.SameValueZero (gridLng r1) (gridLng r2)) /\
  (gridLat r1 = gridLat r2 -> gridLng r1 = gridLng r2 ->
   shareCell aroundZeroGrid r1 r2).
Proof.
  intros r1 r2.
  assert (E : buildGrid Number_toString_ref aroundZero = Ok aroundZeroGrid)
    by (vm_compute; reflexivity).
  split; [exact E|].
  apply (same_cell_iff_same_floor Number_toString_ref
           Number_toString_ref_laws aroundZero aroundZeroGrid r1 r2 E).
  - left; reflexivity.
  - right; left; reflexivity.
Defined.

(** The hotspot of [twoReports] is centered at the center of the cell of
    each of the two. *)
Lemma hotspot_center_is_cell_center_witness :
  computeHotspots Number_toString_ref twoReports = Ok [twoReportsHotspot] /\
  Forall (fun r =>
            Hotspot_lat twoReportsHotspot
            = (JS.Math_floor (lat (location r) / num_0_1) * num_0_1
               + num_0_1 / num_2)%num /\
            Hotspot_lng twoReportsHotspot
            = (JS.Math_floor (lng (location r) / num_0_1) * num_0_1
               + num_0_1 / num_2)%num) twoReports.
Proof.
  assert (E : computeHotspots Number_toString_ref twoReports
              = Ok [twoReportsHotspot]) by (vm_compute; reflexivity).
  split; [exact E|].
  destruct (hotspot_center_is_cell_center Number_toString_ref
              Number_toString_ref_laws twoReports [twoReportsHotspot] E)
    as (_ & H & _).
  apply Forall_forall. intros r Hr.
  destruct (H r Hr) as (h & Hin & Hcen & _).
  - vm_compute in Hr. destruct Hr as [<-|[<-|[]]]; vm_compute; discriminate.
  - destruct Hin as [<-|[]]. exact Hcen.
Defined.

(** [twoReports] and the same reports in reverse order. *)
Lemma computeHotspots_permutation_witness :
  Permutation twoReports (rev twoReports) /\
  exists hs hs',
    computeHotspots Number_toString_ref twoReports = Ok hs /\
    computeHotspots Number_toString_ref (rev twoReports) = Ok hs' /\
    Permutation hs hs'.
Proof.
  assert (Hperm : Permutation twoReports (rev twoReports))
    by apply perm_swap.
  split; [exact Hperm|].
  exact (proj1 (computeHotspots_permutation Number_toString_ref
                  Number_toString_ref_laws twoReports (rev twoReports) Hperm)).
Defined.

(* ================================================================== *)
(** ** The order and the number of the hotspots *)

Lemma Set_add_present (set : list string) (value : string) :
  In value set -> Set_add set value = set.
Proof.
  intros Hin. unfold Set_add.
  assert (E : existsb (String.eqb value) set = true).
  { apply existsb_exists. exists value. split; [assumption|].
    apply String.eqb_refl. }
  now rewrite E.
Qed.

Lemma Set_add_absent (set : list string) (value : string) :
  ~ In value set -> Set_add set value = set ++ [value].
Proof.
  intros Hout. unfold Set_add.
  destruct (existsb (String.eqb value) set) eqn:E; [|reflexivity].
  apply existsb_exists in E as (x & Hx & Heq).
  apply String.eqb_eq in Heq. subst x. contradiction.
Qed.

Lemma Grid_set_total_new (grid : Grid) (key : string) (c : Cell) :
  Grid_get grid key = None ->
  gridTotal (Grid_set grid key c)
  = (gridTotal grid + List.length (Cell_reports c))%nat.
Proof.
  unfold gridTotal.
  induction grid as [|[k c0] rest IH]; simpl; [lia|].
  destruct (String.eqb k key); [discriminate|].
  intros H. simpl. rewrite (IH H). lia.
Qed.

Lemma Grid_set_total_old (grid : Grid) (key : string) (c c0 : Cell) :
  Grid_get grid key = Some c0 ->
  (gridTotal (Grid_set grid key c) + List.length (Cell_reports c0)
   = gridTotal grid + List.length (Cell_reports c))%nat.
Proof.
  unfold gridTotal.
  induction grid as [|[k c1] rest IH]; simpl; [discriminate|].
  destruct (String.eqb k key).
  - intros [= ->]. simpl. lia.
  - intros H. simpl. specialize (IH H). lia.
Qed.

Section OrderFacts.

Variable ts : JS.number -> string.

(** One round of the first loop adds the key of the report to the keys of
    the grid, as a set in insertion order, and one report to the grid. *)
Lemma addReport_keys_total (grid grid' : Grid) (r : HazardReport) :
  addReport ts grid r = Ok grid' ->
  map fst grid' = Set_add (map fst grid) (cellKey ts r) /\
  gridTotal grid' = S (gridTotal grid).
Proof.
  unfold addReport. fold (cellKey ts r).
  destruct (Grid_get grid (cellKey ts r)) as [c|] eqn:E.
  - rewrite E. intros [= <-]. split.
    + rewrite (Grid_set_keys_old _ _ _ _ E).
      symmetry. apply Set_add_present.
      apply Grid_get_In in E. now apply (in_map fst) in E.
    + pose proof (Grid_set_total_old grid (cellKey ts r) (push c r) c E) as H.
      simpl in H. rewrite length_app in H. simpl in H. lia.
  - rewrite Grid_get_set_same. intros [= <-]. split.
    + rewrite (Grid_set_keys_old _ _ _ _ (Grid_get_set_same _ _ _)).
      rewrite (Grid_set_keys_new _ _ _ E).
      symmetry. apply Set_add_absent. now apply Grid_get_None.
    + match goal with
      | |- gridTotal (Grid_set (Grid_set _ _ ?c0) _ ?c1) = _ =>
          pose proof (Grid_set_total_old _ (cellKey ts r) c1 c0
                        (Grid_get_set_same grid (cellKey ts r) c0)) as H;
          pose proof (Grid_set_total_new grid (cellKey ts r) c0 E) as H0
      end.
      simpl in H, H0. lia.
Qed.

Lemma forEach_addReport_keys_total (rest : list HazardReport)
    (grid grid' : Grid) :
  forEach (addReport ts) rest grid = Ok grid' ->
  map fst grid' = fold_left Set_add (map (cellKey ts) rest) (map fst grid) /\
  gridTotal grid' = (gridTotal grid + List.length rest)%nat.
Proof.
  revert grid. induction rest as [|r rest IH]; intros grid; simpl.
  - intros [= <-]. split; [reflexivity|lia].
  - destruct (addReport ts grid r) as [g1|e] eqn:E1; simpl; [|discriminate].
    intros E. apply addReport_keys_total in E1 as [Hk Ht].
    apply IH in E as [Hk' Ht']. rewrite Hk', Hk, Ht', Ht. split; [reflexivity|lia].
Qed.

(** The grid has one property per key of [cellKeys], in that order, and
    holds every report once. *)
Lemma buildGrid_keys_total (reports : list HazardReport) (grid : Grid) :
  buildGrid ts reports = Ok grid ->
  map fst grid = cellKeys ts reports /\
  gridTotal grid = List.length reports.
Proof.
  intros E. apply forEach_addReport_keys_total in E as [Hk Ht].
  split; [exact Hk | exact Ht].
Qed.

Lemma keyedHotspots_by_key (reports : list HazardReport) (grid : Grid) :
  (forall key c, In (key, c) grid -> cellOf ts key reports = Some c) ->
  map snd (keyedHotspots grid)
  = flat_map (hotspotOfKey ts reports) (map fst grid).
Proof.
  induction grid as [|[k c] rest IH]; intros H; [reflexivity|].
  change (keyedHotspots ((k, c) :: rest))
    with (emitKeyed (k, c) ++ keyedHotspots rest).
  rewrite map_app, IH by (intros; apply H; now right).
  simpl. f_equal. unfold hotspotOfKey, emitKeyed.
  rewrite (H k c) by now left. simpl.
  now destruct (minReports <=? cellCount c).
Qed.

Lemma computeHotspots_by_key (reports : list HazardReport) :
  computeHotspots ts reports
  = Ok (flat_map (hotspotOfKey ts reports) (cellKeys ts reports)).
Proof.
  destruct (computeHotspots_byCell ts reports)
    as (grid & E & [Hnd Hget] & Ek & Ec).
  destruct (buildGrid_keys_total reports grid E) as [Hkeys _].
  rewrite Ec, Ek, <- Hkeys. f_equal.
  apply keyedHotspots_by_key. intros key c Hin.
  rewrite <- Hget. now apply In_Grid_get.
Qed.

(** X1: the hotspots come out in the order in which their cells first
    occur in the input: the result of [computeHotspots] is, key by key in
    that order, the hotspot of the cell if the cell has enough reports. *)
Theorem computeHotspots_in_first_occurrence_order
    (reports : list HazardReport) :
  computeHotspots ts reports
  = Ok (flat_map (hotspotOfKey ts reports) (cellKeys ts reports)) /\
  NoDup (cellKeys ts reports) /\
  (forall key, In key (cellKeys ts reports) <->
               exists r, In r reports /\ cellKey ts r = key).
Proof.
  destruct (computeHotspots_byCell ts reports)
    as (grid & E & [Hnd Hget] & Ek & Ec).
  destruct (buildGrid_keys_total reports grid E) as [Hkeys _].
  split; [|split].
  - apply computeHotspots_by_key.
  - now rewrite <- Hkeys.
  - intros key. rewrite <- Hkeys. split.
    + intros Hin. destruct (Grid_get grid key) as [c|] eqn:Eg.
      * rewrite Hget in Eg. unfold cellOf in Eg.
        destruct (cellMembers ts key reports) as [|first rest] eqn:Em;
          [discriminate|].
        exists first.
        assert (H : In first (cellMembers ts key reports))
          by (rewrite Em; now left).
        unfold cellMembers, inCell in H. apply filter_In in H as [H1 H2].
        apply String.eqb_eq in H2. auto.
      * now apply Grid_get_None in Eg.
    + intros (r & Hr & <-).
      destruct (Grid_get grid (cellKey ts r)) as [c|] eqn:Eg.
      * apply Grid_get_In in Eg. now apply (in_map fst) in Eg.
      * exfalso. rewrite Hget in Eg. unfold cellOf in Eg.
        assert (H : In r (cellMembers ts (cellKey ts r) reports)).
        { unfold cellMembers, inCell. apply filter_In. split; [assumption|].
          apply String.eqb_refl. }
        destruct (cellMembers ts (cellKey ts r) reports);
          [destruct H | discriminate].
Qed.

Lemma keyedHotspots_total (grid : Grid) :
  totalIntensity (map snd (keyedHotspots grid)) <= Z.of_nat (gridTotal grid) /\
  2 * Z.of_nat (List.length (keyedHotspots grid)) <= Z.of_nat (gridTotal grid).
Proof.
  induction grid as [|[k c] rest [IH1 IH2]]; [simpl; lia|].
  change (keyedHotspots ((k, c) :: rest))
    with (emitKeyed (k, c) ++ keyedHotspots rest).
  change (gridTotal ((k, c) :: rest))
    with (List.length (Cell_reports c) + gridTotal rest)%nat.
  unfold emitKeyed. simpl fst. simpl snd.
  destruct (Z.leb_spec minReports (cellCount c)) as [Hle|Hlt].
  - cbn [app map snd List.length].
    change (totalIntensity (cellHotspot c :: map snd (keyedHotspots rest)))
      with (cellCount c + totalIntensity (map snd (keyedHotspots rest))).
    unfold cellCount in *. unfold minReports in Hle. lia.
  - cbn [app]. lia.
Qed.

(** X2: no report counts twice: the intensities of the hotspots add up to
    at most the number of reports, and there are at most half as many
    hotspots as reports. *)
Theorem hotspots_bounded_by_reports (reports : list HazardReport) :
  exists hs,
    computeHotspots ts reports = Ok hs /\
    totalIntensity hs <= Z.of_nat (List.length reports) /\
    2 * Z.of_nat (List.length hs) <= Z.of_nat (List.length reports).
Proof.
  destruct (computeHotspots_byCell ts reports) as (grid & E & _ & Ek & Ec).
  destruct (buildGrid_keys_total reports grid E) as [_ Ht].
  eexists. split; [exact Ec|].
  rewrite Ek, length_map, <- Ht. apply keyedHotspots_total.
Qed.

(** X3: an emitted hotspot counts at least two reports, and its radius is
    one of 4000, 6000, 8000 and 10000 meters; it is 10000 exactly from five
    reports on. *)
Theorem hotspot_radius_values (reports : list HazardReport) :
  exists hs,
    computeHotspots ts reports = Ok hs /\
    Forall (fun h =>
              2 <= intensity h /\ reportCount h = intensity h /\
              In (radius h) [4000; 6000; 8000; 10000] /\
              (radius h = 10000 <-> 5 <= intensity h)) hs.
Proof.
  destruct (computeHotspots_byCell ts reports) as (_ & _ & _ & _ & Ec).
  eexists. split; [exact Ec|].
  apply Forall_forall. intros h Hin.
  destruct (In_computeHotspots ts _ _ _ Ec Hin) as (k & c & _ & Hc & Hle & ->).
  apply cellOf_size in Hc as [_ Hsize]. rewrite <- Hsize in Hle.
  unfold minReports in Hle. simpl.
  split; [exact Hle|]. split; [reflexivity|].
  assert (Hcases : cellCount c = 2 \/ cellCount c = 3 \/ cellCount c = 4 \/
                   5 <= cellCount c) by lia.
  destruct Hcases as [E|[E|[E|E]]]; try rewrite E; simpl; split;
    try tauto; try lia.
Qed.

End OrderFacts.

(* ================================================================== *)
(** ** Renders, and the details panel *)

Lemma sub_self (x : JS.number) :
  Number_isFinite x = true -> (x - x)%num = JS.posZero.
Proof.
  destruct x as [s| | |s m e]; try discriminate; intros _.
  - now destruct s.
  - unfold JS.sub, SFsub. cbv zeta. now rewrite Z.sub_diag.
Qed.

(** X5: a report located exactly at the center of a hotspot with finite
    coordinates is at distance 0 from it and so within the threshold; but a
    report that counts in a hotspot need not be within the threshold of
    it: two reports at latitude 0, longitude 0 make a hotspot centered at
    (0.05, 0.05), which the lookup does not find for them. *)
Theorem nearby_at_center_not_at_corner (report : HazardReport) (h : Hotspot) :
  Number_isFinite (Hotspot_lat h) = true ->
  Number_isFinite (Hotspot_lng h) = true ->
  lat (location report) = Hotspot_lat h ->
  lng (location report) = Hotspot_lng h ->
  (distance report h = JS.posZero /\ isNearby report h = true) /\
  (computeHotspots Number_toString_ref originReports = Ok [originHotspot] /\
   Forall (fun r => nearbyHotspot [originHotspot] r = None) originReports).
Proof.
  intros Hlat Hlng Elat Elng. split.
  - assert (E : distance report h = JS.posZero).
    { unfold distance. rewrite Elat, Elng, !sub_self by assumption.
      reflexivity. }
    split; [exact E|]. unfold isNearby. rewrite E. reflexivity.
  - split; [vm_compute; reflexivity|].
    repeat constructor.
Qed.

Lemma nearby_at_center_not_at_corner_witness :
  distance (reportAt sampleCenterLat sampleCenterLng low) twoReportsHotspot
  = JS.posZero /\
  isNearby (reportAt sampleCenterLat sampleCenterLng low) twoReportsHotspot
  = true.
Proof.
  exact (proj1 (nearby_at_center_not_at_corner
                  (reportAt sampleCenterLat sampleCenterLng low)
                  twoReportsHotspot eq_refl eq_refl eq_refl eq_refl)).
Defined.

(* ================================================================== *)
(** ** The dashboard's filters *)



Lemma passesFilters_spec (f : Dashboard.MapFilters) (r : HazardReport) :
  Dashboard.passesFilters f r = true <->
  (Dashboard.filter_severity f = "all"%string \/
   Severity_name (severity r) = Dashboard.filter_severity f) /\
  (Dashboard.filter_status f = "all"%string \/
   Status_name (status r) = Dashboard.filter_status f) /\
  (Dashboard.filter_hazardType f = "all"%string \/
   hazardType r = Dashboard.filter_hazardType f).
Proof.
  unfold Dashboard.passesFilters.
  destruct (String.eqb_spec (Dashboard.filter_severity f) "all");
    destruct (String.eqb_spec (Severity_name (severity r))
                (Dashboard.filter_severity f));
    destruct (String.eqb_spec (Dashboard.filter_status f) "all");
    destruct (String.eqb_spec (Status_name (status r))
                (Dashboard.filter_status f));
    destruct (String.eqb_spec (Dashboard.filter_hazardType f) "all");
    destruct (String.eqb_spec (hazardType r)
                (Dashboard.filter_hazardType f));
    simpl; split; try tauto; try discriminate.
Qed.

Lemma In_filteredReports (f : Dashboard.MapFilters)
    (allReports : list HazardReport) (r : HazardReport) :
  In r (Dashboard.filteredReports f allReports) <->
  In r allReports /\
  (Dashboard.filter_severity f = "all"%string \/
   Severity_name (severity r) = Dashboard.filter_severity f) /\
  (Dashboard.filter_status f = "all"%string \/
   Status_name (status r) = Dashboard.filter_status f) /\
  (Dashboard.filter_hazardType f = "all"%string \/
   hazardType r = Dashboard.filter_hazardType f).
Proof.
  unfold Dashboard.filteredReports.
  rewrite filter_In, passesFilters_spec. tauto.
Qed.

Lemma filteredReports_all (allReports : list HazardReport) :
  Dashboard.filteredReports Dashboard.initialFilters allReports = allReports.
Proof.
  unfold Dashboard.filteredReports.
  induction allReports as [|r rest IH]; [reflexivity|].
  simpl. now rewrite IH.
Qed.

(** X6: the reports handed to the map are the reports that meet every
    criterion that is not ["all"], in their order; with all three filters at
    ["all"] they are all the reports, and filtering by the three criteria at
    once is filtering by one after the other. *)
Theorem filteredReports_criteria
    (f : Dashboard.MapFilters) (allReports : list HazardReport) :
  (forall r,
      In r (Dashboard.filteredReports f allReports) <->
      In r allReports /\
      (Dashboard.filter_severity f = "all"%string \/
       Severity_name (severity r) = Dashboard.filter_severity f) /\
      (Dashboard.filter_status f = "all"%string \/
       Status_name (status r) = Dashboard.filter_status f) /\
      (Dashboard.filter_hazardType f = "all"%string \/
       hazardType r = Dashboard.filter_hazardType f)) /\
  Dashboard.filteredReports Dashboard.initialFilters allReports = allReports /\
  Dashboard.filteredReports f allReports
  = Dashboard.filteredReports
      (Dashboard.mkMapFilters (Dashboard.filter_severity f) "all" "all")
      (Dashboard.filteredReports
         (Dashboard.mkMapFilters "all" (Dashboard.filter_status f) "all")
         (Dashboard.filteredReports
            (Dashboard.mkMapFilters "all" "all"
               (Dashboard.filter_hazardType f))
            allReports)) /\
  (List.length (Dashboard.filteredReports f allReports)
   <= List.length allReports)%nat.
Proof.
  split; [|split; [|split]].
  - intros r. apply In_filteredReports.
  - apply filteredReports_all.
  - unfold Dashboard.filteredReports.
    induction allReports as [|r rest IH]; [reflexivity|].
    cbn [filter]. rewrite IH.
    destruct (Dashboard.passesFilters f r) eqn:E.
    + apply passesFilters_spec in E as (Hs & Ht & Hh).
      assert (E1 : Dashboard.passesFilters
                     (Dashboard.mkMapFilters "all" "all"
                        (Dashboard.filter_hazardType f)) r = true)
        by (apply passesFilters_spec; simpl; tauto).
      assert (E2 : Dashboard.passesFilters
                     (Dashboard.mkMapFilters "all"
                        (Dashboard.filter_status f) "all") r = true)
        by (apply passesFilters_spec; simpl; tauto).
      assert (E3 : Dashboard.passesFilters
                     (Dashboard.mkMapFilters
                        (Dashboard.filter_severity f) "all" "all") r = true)
        by (apply passesFilters_spec; simpl; tauto).
      rewrite E1. cbn [filter]. rewrite E2. cbn [filter]. now rewrite E3.
    + destruct (Dashboard.passesFilters
                  (Dashboard.mkMapFilters "all" "all"
                     (Dashboard.filter_hazardType f)) r) eqn:E1;
        [|reflexivity].
      cbn [filter].
      destruct (Dashboard.passesFilters
                  (Dashboard.mkMapFilters "all"
                     (Dashboard.filter_status f) "all") r) eqn:E2;
        [|reflexivity].
      cbn [filter].
      destruct (Dashboard.passesFilters
                  (Dashboard.mkMapFilters
                     (Dashboard.filter_severity f) "all" "all") r) eqn:E3;
        [|reflexivity].
      exfalso.
      apply passesFilters_spec in E1 as (_ & _ & H1).
      apply passesFilters_spec in E2 as (_ & H2 & _).
      apply passesFilters_spec in E3 as (H3 & _ & _).
      simpl in H1, H2, H3.
      assert (Dashboard.passesFilters f r = true)
        by (apply passesFilters_spec; tauto).
      congruence.
  - unfold Dashboard.filteredReports. apply filter_length_le.
Qed.


Section FilterFacts.

Variable ts : JS.number -> string.
Hypothesis laws : ToStringLaws ts.

Lemma cellMembers_filter (p : HazardReport -> bool) (key : string)
    (reports : list HazardReport) :
  cellMembers ts key (filter p reports)
  = filter p (cellMembers ts key reports).
Proof.
  unfold cellMembers.
  induction reports as [|r rest IH]; [reflexivity|]. simpl.
  destruct (p r) eqn:Ep, (inCell ts key r) eqn:Ei; simpl;
    rewrite ?Ep, ?Ei, IH; reflexivity.
Qed.

Lemma cellSize_filter_le (p : HazardReport -> bool) (key : string)
    (reports : list HazardReport) :
  cellSize ts key (filter p reports) <= cellSize ts key reports.
Proof.
  unfold cellSize. rewrite cellMembers_filter.
  apply inj_le, filter_length_le.
Qed.

Lemma filtered_keyed_within_all
    (f : Dashboard.MapFilters) (allReports : list HazardReport)
    (key : string) (h : Hotspot) :
  In (key, h) (hotspotsByCell ts (Dashboard.filteredReports f allReports)) ->
  exists h',
    In (key, h') (hotspotsByCell ts allReports) /\
    Hotspot_lat h' = Hotspot_lat h /\ Hotspot_lng h' = Hotspot_lng h /\
    intensity h <= intensity h' /\ radius h <= radius h'.
Proof.
  unfold Dashboard.filteredReports. set (p := Dashboard.passesFilters f).
  intros Hin. apply In_hotspotsByCell in Hin as (c & Hc & Hle & ->).
  pose proof (cellSize_filter_le p key allReports) as Hsize.
  destruct (cellOf ts key allReports) as [c'|] eqn:Hc'.
  2:{ apply cellOf_None in Hc'. unfold minReports in Hle. lia. }
  exists (cellHotspot c').
  destruct (cellOf_size ts _ _ _ Hc) as [Hmem Hcount].
  destruct (cellOf_size ts _ _ _ Hc') as [Hmem' Hcount'].
  assert (Hfirst : exists first, In first (filter p allReports) /\
                                 cellKey ts first = key).
  { unfold cellOf in Hc.
    destruct (cellMembers ts key (filter p allReports)) as [|first rest] eqn:E;
      [discriminate|].
    exists first. apply (In_cellMembers ts). rewrite E. now left. }
  destruct Hfirst as (first & Hf & Hk).
  assert (Hfall : In first allReports) by (apply filter_In in Hf; tauto).
  pose proof (cellOf_center ts laws _ _ _ _ Hc Hf Hk) as Ecen.
  pose proof (cellOf_center ts laws _ _ _ _ Hc' Hfall Hk) as Ecen'.
  rewrite <- Ecen in Ecen'. injection Ecen' as Elat Elng.
  split; [|split; [|split; [|split]]].
  - apply In_hotspotsByCell. exists c'. split; [exact Hc'|].
    split; [lia|reflexivity].
  - exact Elat.
  - exact Elng.
  - simpl. lia.
  - simpl. lia.
Qed.

(** X8: filtering the reports can only remove hotspots or shrink them:
    every hotspot in the result of [computeHotspots] on the filtered reports
    has, in the result on all the reports, a hotspot with the same center
    whose intensity and radius are not smaller. *)
Theorem filtered_hotspots_within_all
    (f : Dashboard.MapFilters) (allReports : list HazardReport)
    (hsFiltered hsAll : list Hotspot) (h : Hotspot) :
  computeHotspots ts (Dashboard.filteredReports f allReports)
  = Ok hsFiltered ->
  computeHotspots ts allReports = Ok hsAll ->
  In h hsFiltered ->
  exists h',
    In h' hsAll /\
    Hotspot_lat h' = Hotspot_lat h /\ Hotspot_lng h' = Hotspot_lng h /\
    intensity h <= intensity h' /\ radius h <= radius h'.
Proof.
  intros Ef Ea Hin.
  destruct (In_computeHotspots ts _ _ _ Ef Hin) as (key & c & Hk & _).
  destruct (filtered_keyed_within_all f allReports key h Hk)
    as (h' & Hk' & Hrest).
  exists h'. split; [|exact Hrest].
  destruct (computeHotspots_byCell ts allReports) as (_ & _ & _ & _ & Ec).
  rewrite Ec in Ea. injection Ea as <-.
  apply in_map_iff. exists (key, h'). auto.
Qed.

End FilterFacts.

(** Of [twoReports], the filter on critical severity keeps one report, so
    the hotspot goes; with no filter it stays. *)
Lemma filtered_hotspots_within_all_witness :
  computeHotspots Number_toString_ref
    (Dashboard.filteredReports Dashboard.initialFilters twoReports)
  = Ok [twoReportsHotspot] /\
  computeHotspots Number_toString_ref
    (Dashboard.filteredReports criticalOnly twoReports) = Ok [] /\
  exists h',
    In h' [twoReportsHotspot] /\
    Hotspot_lat h' = Hotspot_lat twoReportsHotspot /\
    Hotspot_lng h' = Hotspot_lng twoReportsHotspot /\
    intensity twoReportsHotspot <= intensity h' /\
    radius twoReportsHotspot <= radius h'.
Proof.
  assert (Ef : computeHotspots Number_toString_ref
                 (Dashboard.filteredReports Dashboard.initialFilters
                    twoReports) = Ok [twoReportsHotspot])
    by (vm_compute; reflexivity).
  assert (Ea : computeHotspots Number_toString_ref twoReports
               = Ok [twoReportsHotspot]) by (vm_compute; reflexivity).
  split; [exact Ef|]. split; [vm_compute; reflexivity|].
  exact (filtered_hotspots_within_all Number_toString_ref
           Number_toString_ref_laws Dashboard.initialFilters twoReports
           [twoReportsHotspot] [twoReportsHotspot] twoReportsHotspot
           Ef Ea (or_introl eq_refl)).
Defined.

(* ================================================================== *)
(** ** [formatTimeAgo] *)

Lemma digits_not_Just_now (z : Z) (suffix : string) :
  1 <= z -> (signed_digits z ++ suffix)%string <> "Just now"%string.
Proof.
  destruct z as [|p|p]; try lia. intros _. cbn [signed_digits].
  destruct (digits_head p) as (c & rest & -> & Hc).
  intros E. inversion E; subst. discriminate Hc.
Qed.

Lemma formatTimeAgo_binary64_samples :
  Forall (fun t => formatTimeAgo_binary64 (fst t) (snd t)
                   = formatTimeAgo (fst t) (snd t)) timeSamples /\
  formatTimeAgo_binary64 8640000000000000 (-8639999999999999)
  = "200000000 days ago"%string /\
  formatTimeAgo 8640000000000000 (-8639999999999999)
  = "199999999 days ago"%string.
Proof.
  split; [|split]; [|vm_compute; reflexivity..].
  unfold timeSamples. repeat constructor; vm_compute; reflexivity.
Qed.

(** X9: for times of magnitude at most 2^50 ms, [formatTimeAgo] answers
    ["Just now"] exactly for a date less than a minute back, which includes
    every date ahead of the clock; then whole minutes from 1 to 59, whole
    hours from 1 to 23 and whole days, each the elapsed milliseconds divided
    down in one step; ["hour"] and ["day"] take their ["s"] from two on,
    ["min"] never does. *)
Theorem formatTimeAgo_units (now date : Z)
    (Hnow : Z.abs now <= 2 ^ 50) (Hdate : Z.abs date <= 2 ^ 50) :
  let d := now - date in
  (formatTimeAgo now date = "Just now"%string <-> d < 60000) /\
  (60000 <= d < 3600000 ->
   formatTimeAgo now date
   = (signed_digits (d / 60000) ++ " min ago")%string /\
   1 <= d / 60000 <= 59) /\
  (3600000 <= d < 86400000 ->
   formatTimeAgo now date
   = (signed_digits (d / 3600000) ++ " hour"
      ++ (if (7200000 <=? d)%Z then "s" else "") ++ " ago")%string /\
   1 <= d / 3600000 <= 23) /\
  (86400000 <= d ->
   formatTimeAgo now date
   = (signed_digits (d / 86400000) ++ " day"
      ++ (if (172800000 <=? d)%Z then "s" else "") ++ " ago")%string /\
   1 <= d / 86400000).
Proof.
  intros d. unfold formatTimeAgo. fold d.
  change (1000 * 60) with 60000.
  assert (Eh : d / 60000 / 60 = d / 3600000)
    by (rewrite Z.div_div by lia; reflexivity).
  assert (Ed : d / 60000 / 60 / 24 = d / 86400000)
    by (rewrite !Z.div_div by lia; reflexivity).
  cbv zeta. rewrite Ed, Eh.
  assert (Hm : d / 60000 < 1 <-> d < 60000)
    by (Z.div_mod_to_equations; lia).
  assert (Hm60 : d / 60000 < 60 <-> d < 3600000)
    by (Z.div_mod_to_equations; lia).
  assert (Hh24 : d / 3600000 < 24 <-> d < 86400000)
    by (Z.div_mod_to_equations; lia).
  assert (Hh1 : 1 < d / 3600000 <-> 7200000 <= d)
    by (Z.div_mod_to_equations; lia).
  assert (Hd1 : 1 < d / 86400000 <-> 172800000 <= d)
    by (Z.div_mod_to_equations; lia).
  assert (Hh0 : 3600000 <= d -> 1 <= d / 3600000)
    by (Z.div_mod_to_equations; lia).
  assert (Hd0 : 86400000 <= d -> 1 <= d / 86400000)
    by (Z.div_mod_to_equations; lia).
  assert (Hm0 : 60000 <= d -> 1 <= d / 60000)
    by (Z.div_mod_to_equations; lia).
  unfold plural.
  destruct (Z.ltb_spec (d / 60000) 1) as [H1|H1];
    destruct (Z.ltb_spec (d / 60000) 60) as [H2|H2];
    destruct (Z.ltb_spec (d / 3600000) 24) as [H3|H3];
    destruct (Z.ltb_spec 1 (d / 3600000)) as [H4|H4];
    destruct (Z.ltb_spec 1 (d / 86400000)) as [H5|H5];
    destruct (Z.leb_spec 7200000 d) as [H6|H6];
    destruct (Z.leb_spec 172800000 d) as [H7|H7];
    try (exfalso; lia).
  all: repeat split; intros; try lia; try reflexivity.
  all: try (exfalso;
            match goal with
            | H : (signed_digits _ ++ _)%string = "Just now"%string |- _ =>
                apply digits_not_Just_now in H; [exact H | lia]
            end).
Qed.

Lemma formatTimeAgo_units_witness :
  Z.abs 1700007200000 <= 2 ^ 50 /\ Z.abs 1700000000000 <= 2 ^ 50 /\
  formatTimeAgo 1700007200000 1700000000000 = "2 hours ago"%string /\
  formatTimeAgo_binary64 1700007200000 1700000000000
  = "2 hours ago"%string.
Proof.
  assert (Hnow : Z.abs 1700007200000 <= 2 ^ 50) by (vm_compute; discriminate).
  assert (Hdate : Z.abs 1700000000000 <= 2 ^ 50)
    by (vm_compute; discriminate).
  split; [exact Hnow|]. split; [exact Hdate|].
  destruct (formatTimeAgo_units 1700007200000 1700000000000 Hnow Hdate)
    as (_ & _ & Hhours & _).
  destruct Hhours as [E _]; [lia|].
  split; [rewrite E|]; vm_compute; reflexivity.
Defined.

(* ================================================================== *)
(** ** The location search *)

Lemma firstSegment_lacks (s : string) : lacks "," (firstSegment s) = true.
Proof.
  induction s as [|c s IH]; [reflexivity|]. cbn [firstSegment].
  destruct (Ascii.eqb c ",") eqn:E; [reflexivity|].
  cbn [lacks]. now rewrite E, IH.
Qed.

Lemma firstSegment_prefix (s : string) :
  exists rest,
    s = (firstSegment s ++ rest)%string /\
    (rest = EmptyString \/ exists t, rest = String "," t).
Proof.
  induction s as [|c s (rest & E & H)].
  - exists EmptyString. auto.
  - cbn [firstSegment]. destruct (Ascii.eqb_spec c ",") as [->|Hne].
    + exists (String "," s). eauto.
    + exists rest. split; [|exact H]. simpl. now rewrite <- E.
Qed.

Section SearchFacts.

Variable parseFloat : string -> JS.number.

(** X10: whatever is typed and clicked from the start, and however the
    requests end, every listed search result is named by what comes before
    the first comma of its address: the name holds no comma and the address
    is the name, alone or followed by a comma and more. *)
Theorem search_results_named (evs : list SearchEvent) :
  Forall (fun r =>
            SearchResult_name r = firstSegment (SearchResult_address r) /\
            lacks "," (SearchResult_name r) = true /\
            exists rest,
              SearchResult_address r = (SearchResult_name r ++ rest)%string /\
              (rest = EmptyString \/ exists t, rest = String "," t))
    (searchResults (runSearch parseFloat initialSearch evs)).
Proof.
  set (P := fun r : SearchResult =>
              SearchResult_name r = firstSegment (SearchResult_address r)).
  assert (HP : forall st, Forall P (searchResults st) ->
                          Forall P (searchResults
                                      (runSearch parseFloat st evs))).
  { unfold runSearch. induction evs as [|ev evs IH]; intros st H; [exact H|].
    simpl. apply IH. destruct ev as [query outcome|result]; simpl.
    - unfold handleSearch, searchLocation.
      destruct (utf16Length query <? 3)%nat; [constructor|].
      destruct outcome as [places|]; [|exact H].
      simpl. apply Forall_forall. intros r Hr.
      apply in_map_iff in Hr as (pl & <- & _). reflexivity.
    - constructor. }
  specialize (HP initialSearch (Forall_nil _)).
  eapply Forall_impl; [|exact HP].
  intros r Hr. unfold P in Hr. split; [exact Hr|]. rewrite Hr. split.
  - apply firstSegment_lacks.
  - apply firstSegment_prefix.
Qed.

(** X11: typing always records the query; a query of fewer than three
    UTF-16 code units empties the list without any request being looked at
    (so does a query of two Devanagari letters, six bytes long); a longer
    query whose request fails leaves the list of the earlier query in place;
    one whose request succeeds lists one result per place, in order.
    Clicking a result empties the list, makes its name the query, and, when
    there is a map, moves the map to it at zoom 12. *)
Theorem handleSearch_outcomes
    (fetchPlaces : string -> option (list Place))
    (query : string) (st : SearchState) :
  let st' := handleSearch parseFloat fetchPlaces query st in
  searchQuery st' = query /\ mapRef st' = mapRef st /\
  ((utf16Length query < 3)%nat -> searchResults st' = []) /\
  (utf16Length "गो" = 2%nat /\ String.length "गो" = 6%nat /\
   searchResults (handleSearch parseFloat fetchPlaces "गो" st) = []) /\
  ((3 <= utf16Length query)%nat ->
   match fetchPlaces query with
   | None => searchResults st' = searchResults st
   | Some places =>
       searchResults st' = map (toSearchResult parseFloat) places /\
       List.length (searchResults st') = List.length places
   end) /\
  (forall result,
      let st2 := handleSearchResultClick result st in
      searchQuery st2 = SearchResult_name result /\
      searchResults st2 = [] /\
      match mapRef st with
      | None => mapRef st2 = None
      | Some _ =>
          mapRef st2
          = Some {| view_center :=
                      (SearchResult_lat result, SearchResult_lng result);
                    view_zoom := 12 |}
      end).
Proof.
  cbv zeta.
  assert (Hclick : forall result,
             searchQuery (handleSearchResultClick result st)
             = SearchResult_name result /\
             searchResults (handleSearchResultClick result st) = [] /\
             match mapRef st with
             | None => mapRef (handleSearchResultClick result st) = None
             | Some _ =>
                 mapRef (handleSearchResultClick result st)
                 = Some {| view_center :=
                             (SearchResult_lat result,
                              SearchResult_lng result);
                           view_zoom := 12 |}
             end).
  { intros result. unfold handleSearchResultClick.
    destruct (mapRef st) eqn:E; simpl; rewrite ?E; repeat split. }
  assert (Hshort : utf16Length "गो" = 2%nat /\ String.length "गो" = 6%nat /\
                   searchResults (handleSearch parseFloat fetchPlaces "गो" st)
                   = []).
  { repeat split. }
  unfold handleSearch, searchLocation.
  destruct (Nat.ltb_spec (utf16Length query) 3) as [Hlt|Hge].
  - split; [reflexivity|]. split; [reflexivity|].
    split; [intros _; reflexivity|]. split; [exact Hshort|].
    split; [intros H; exfalso; lia|exact Hclick].
  - destruct (fetchPlaces query) as [places|].
    + split; [reflexivity|]. split; [reflexivity|].
      split; [intros H; exfalso; lia|]. split; [exact Hshort|].
      split; [|exact Hclick].
      intros _. split; [reflexivity|]. simpl. now rewrite length_map.
    + split; [reflexivity|]. split; [reflexivity|].
      split; [intros H; exfalso; lia|]. split; [exact Hshort|].
      split; [|exact Hclick]. intros _. reflexivity.
Qed.

End SearchFacts.

(* ================================================================== *)
(** ** Colors and symbols *)

(** X12: on the map the four severities get four different badge classes
    and four different marker colors, none of them the fallback of an
    unknown severity. The dashboard's own [getSeverityColor] has no case for
    ["critical"]: a critical report gets the class of an unknown severity,
    while low, medium and high get three classes of their own. *)
Theorem severity_colors :
  (forall s1 s2 : Severity,
      getSeverityColor (Severity_name s1) = getSeverityColor (Severity_name s2)
      \/ getIconColor (Severity_name s1) = getIconColor (Severity_name s2) ->
      s1 = s2) /\
  (forall s : Severity,
      getSeverityColor (Severity_name s) <> getSeverityColor "" /\
      getIconColor (Severity_name s) <> getIconColor "") /\
  (forall str : string,
      (forall s, str <> Severity_name s) ->
      getSeverityColor str = "bg-gray-500 text-white"%string /\
      getIconColor str = "#6b7280"%string /\
      Dashboard.getSeverityColor str
      = Dashboard.getSeverityColor (Severity_name critical)) /\
  (forall s1 s2 : Severity,
      s1 <> critical -> s2 <> critical ->
      Dashboard.getSeverityColor (Severity_name s1)
      = Dashboard.getSeverityColor (Severity_name s2) ->
      s1 = s2) /\
  (forall s : Severity,
      Dashboard.getSeverityColor (Severity_name s)
      = Dashboard.getSeverityColor "" <-> s = critical).
Proof.
  split; [|split; [|split; [|split]]].
  - intros [] [] [H|H]; try reflexivity; vm_compute in H; discriminate H.
  - intros []; split; vm_compute; discriminate.
  - intros str H.
    pose proof (H low) as Hl. pose proof (H medium) as Hm.
    pose proof (H high) as Hh. pose proof (H critical) as Hc.
    simpl in Hl, Hm, Hh, Hc.
    apply String.eqb_neq in Hl, Hm, Hh, Hc.
    unfold getSeverityColor, getIconColor, Dashboard.getSeverityColor.
    rewrite Hl, Hm, Hh, Hc. repeat split.
  - intros [] [] H1 H2 H; try reflexivity; try contradiction;
      vm_compute in H; discriminate H.
  - intros []; split; intros H; try reflexivity; try discriminate H;
      vm_compute in H; discriminate H.
Qed.

Lemma lowerAscii_idempotent (c : ascii) :
  lowerAscii (lowerAscii c) = lowerAscii c.
Proof. destruct c as [[] [] [] [] [] [] [] []]; reflexivity. Qed.

Lemma toLowerCase_idempotent (s : string) :
  toLowerCase (toLowerCase s) = toLowerCase s.
Proof.
  induction s as [|c s IH]; [reflexivity|].
  simpl. now rewrite lowerAscii_idempotent, IH.
Qed.

(** X13: the marker symbol does not depend on the case of the hazard
    type, and each of the six types that [getIconSymbol] knows has a symbol
    other than the fallback. The report form stores, for each of its eight
    labels, the label in lower case with every run of white space turned
    into a hyphen (["High Waves"] gives ["high-waves"]); none of the eight
    stored values is a type that [getIconSymbol] knows, so every report made
    with the form gets the fallback symbol. *)
Theorem form_hazard_types_symbols :
  (forall s, getIconSymbol (toLowerCase s) = getIconSymbol s) /\
  Forall (fun t => getIconSymbol t <> getIconSymbol "")
    ["tsunami"; "storm surge"; "high waves"; "flooding"; "coastal erosion";
     "abnormal tide"; "Tsunami"; "HIGH WAVES"]%string /\
  map selectValue hazardTypes
  = ["tsunami-warning"; "high-waves"; "storm-surge"; "coastal-flooding";
     "unusual-tide-patterns"; "strong-currents"; "debris-in-water";
     "other"]%string /\
  selectValue "High   Waves " = "high-waves-"%string /\
  Forall (fun label => getIconSymbol (selectValue label) = getIconSymbol "")
    hazardTypes.
Proof.
  split; [|split; [|split; [|split]]].
  - intros s. unfold getIconSymbol. cbv zeta.
    now rewrite toLowerCase_idempotent.
  - repeat constructor; vm_compute; discriminate.
  - vm_compute. reflexivity.
  - vm_compute. reflexivity.
  - repeat constructor.
Qed.

(* ================================================================== *)
(** ** What the cells hold, and what the hotspots depend on *)

Lemma gridReports_set_new (grid : Grid) (key : string) (c : Cell) :
  Grid_get grid key = None ->
  gridReports (Grid_set grid key c) = gridReports grid ++ Cell_reports c.
Proof.
  unfold gridReports, Object_values.
  induction grid as [|[k c0] rest IH]; simpl.
  - intros _. now rewrite app_nil_r.
  - destruct (String.eqb k key); [discriminate|].
    intros H. simpl. rewrite (IH H). now rewrite app_assoc.
Qed.

Lemma gridReports_set_push (grid : Grid) (key : string) (c0 : Cell)
    (r : HazardReport) :
  Grid_get grid key = Some c0 ->
  Permutation (gridReports (Grid_set grid key (push c0 r)))
    (gridReports grid ++ [r]).
Proof.
  unfold gridReports, Object_values.
  induction grid as [|[k c1] rest IH]; simpl; [discriminate|].
  destruct (String.eqb k key).
  - intros [= ->]. simpl. rewrite <- !app_assoc.
    apply Permutation_app_head. apply Permutation_app_comm.
  - intros H. simpl. rewrite <- app_assoc.
    apply Permutation_app_head. now apply IH.
Qed.

Section ContentFacts.

Variable ts : JS.number -> string.

Lemma addReport_gridReports (grid grid' : Grid) (r : HazardReport) :
  addReport ts grid r = Ok grid' ->
  Permutation (gridReports grid') (gridReports grid ++ [r]).
Proof.
  unfold addReport. fold (cellKey ts r).
  destruct (Grid_get grid (cellKey ts r)) as [c|] eqn:E.
  - rewrite E. intros [= <-]. now apply gridReports_set_push.
  - rewrite Grid_get_set_same. intros [= <-].
    match goal with
    | |- Permutation (gridReports (Grid_set (Grid_set _ _ ?c0) _ _)) _ =>
        rewrite (gridReports_set_push _ (cellKey ts r) c0 r
                   (Grid_get_set_same grid (cellKey ts r) c0));
        rewrite (gridReports_set_new grid (cellKey ts r) c0 E)
    end.
    simpl. now rewrite app_nil_r.
Qed.

Lemma forEach_addReport_gridReports (rest : list HazardReport)
    (grid grid' : Grid) :
  forEach (addReport ts) rest grid = Ok grid' ->
  Permutation (gridReports grid') (gridReports grid ++ rest).
Proof.
  revert grid. induction rest as [|r rest IH]; intros grid; simpl.
  - intros [= <-]. now rewrite app_nil_r.
  - destruct (addReport ts grid r) as [g1|e] eqn:E1; simpl; [|discriminate].
    intros E. apply IH in E. apply addReport_gridReports in E1.
    rewrite E, E1, <- app_assoc. reflexivity.
Qed.

(** X14: the cells of the grid share out the reports: taken together they
    hold every report exactly as often as the input has it, each cell holds
    the reports of its key in input order, and no two cells have the same
    key. *)
Theorem grid_partitions_reports (reports : list HazardReport) :
  exists grid,
    buildGrid ts reports = Ok grid /\
    Permutation (gridReports grid) reports /\
    NoDup (map fst grid) /\
    (forall key cell,
        In (key, cell) grid ->
        Cell_reports cell <> [] /\
        Cell_reports cell
        = filter (fun r => String.eqb (cellKey ts r) key) reports).
Proof.
  destruct (buildGrid_GridOf ts reports) as (grid & E & Hnd & Hget).
  exists grid. split; [exact E|]. split; [|split; [exact Hnd|]].
  - exact (forEach_addReport_gridReports reports [] grid E).
  - intros key cell Hin. apply In_Grid_get in Hin; [|exact Hnd].
    rewrite Hget in Hin. unfold cellOf in Hin.
    change (filter (fun r => String.eqb (cellKey ts r) key) reports)
      with (cellMembers ts key reports).
    destruct (cellMembers ts key reports) as [|first rest];
      [discriminate|].
    injection Hin as <-. simpl. split; [discriminate|reflexivity].
Qed.

Lemma cellMembers_same_coordinates (key : string)
    (reports reports' : list HazardReport) :
  map coordinates reports = map coordinates reports' ->
  map coordinates (cellMembers ts key reports)
  = map coordinates (cellMembers ts key reports').
Proof.
  revert reports'.
  induction reports as [|r rest IH]; intros [|r' rest'] E;
    try discriminate; [reflexivity|].
  cbn [map] in E. injection E as Elat Elng Erest.
  assert (Ek : cellKey ts r = cellKey ts r').
  { unfold cellKey, gridLat, gridLng. now rewrite Elat, Elng. }
  assert (Ei : inCell ts key r = inCell ts key r')
    by (unfold inCell; now rewrite Ek).
  unfold cellMembers in *. cbn [filter]. rewrite Ei.
  destruct (inCell ts key r'); [|now apply IH].
  cbn [map]. rewrite (IH rest' Erest). f_equal.
  unfold coordinates. now rewrite Elat, Elng.
Qed.

Lemma hotspotOfKey_same_coordinates (key : string)
    (reports reports' : list HazardReport) :
  map coordinates reports = map coordinates reports' ->
  hotspotOfKey ts reports key = hotspotOfKey ts reports' key.
Proof.
  intros E. apply (cellMembers_same_coordinates key) in E.
  unfold hotspotOfKey, cellOf.
  destruct (cellMembers ts key reports) as [|first rest];
    destruct (cellMembers ts key reports') as [|first' rest'];
    try discriminate; [reflexivity|].
  cbn [map] in E. injection E as Elat Elng Erest.
  apply (f_equal (@List.length _)) in Erest. rewrite !length_map in Erest.
  assert (Ecen : cellCenter first = cellCenter first')
    by (unfold cellCenter, gridLat, gridLng; now rewrite Elat, Elng).
  rewrite Ecen.
  match goal with
  | |- (if _ <=? cellCount ?c then _ else _)
       = (if _ <=? cellCount ?c' then _ else _) =>
      assert (Ecount : cellCount c = cellCount c')
        by (unfold cellCount; cbn [Cell_reports List.length];
            now rewrite Erest);
      assert (Ehot : cellHotspot c = cellHotspot c')
        by (apply cellHotspot_ext;
            [reflexivity | cbn [Cell_reports List.length]; now rewrite Erest])
  end.
  now rewrite Ecount, Ehot.
Qed.

(** X15: the hotspots depend on nothing but the coordinates of the
    reports, in their order: two report lists with the same coordinates,
    whatever their severities, statuses or other fields, give the same
    hotspots. *)
Theorem hotspots_depend_on_coordinates_only
    (reports reports' : list HazardReport) :
  map coordinates reports = map coordinates reports' ->
  computeHotspots ts reports = computeHotspots ts reports'.
Proof.
  intros E. rewrite !computeHotspots_by_key. f_equal.
  assert (Ekeys : cellKeys ts reports = cellKeys ts reports').
  { unfold cellKeys. f_equal.
    clear -E. revert reports' E.
    induction reports as [|r rest IH]; intros [|r' rest'] E;
      try discriminate; [reflexivity|].
    cbn [map] in E. injection E as Elat Elng Erest. cbn [map].
    rewrite (IH rest' Erest). f_equal.
    unfold cellKey, gridLat, gridLng. now rewrite Elat, Elng. }
  rewrite Ekeys. apply flat_map_ext. intros key.
  now apply hotspotOfKey_same_coordinates.
Qed.

End ContentFacts.

(** [twoReports] and [twoLow] have the same coordinates and different
    severities. *)
Lemma hotspots_depend_on_coordinates_only_witness :
  map coordinates twoReports = map coordinates twoLow /\
  map severity twoReports <> map severity twoLow /\
  computeHotspots Number_toString_ref twoReports
  = computeHotspots Number_toString_ref twoLow.
Proof.
  split; [reflexivity|]. split; [discriminate|].
  exact (hotspots_depend_on_coordinates_only Number_toString_ref
           twoReports twoLow eq_refl).
Defined.

(* ================================================================== *)
(** ** Rendering the markers *)

Example btoa_latin1 :
  btoa "Man" = Ok "TWFu"%string /\
  btoa "Ma" = Ok "TWE="%string /\
  btoa "M" = Ok "TQ=="%string /\
  btoa (String "195" (String "169" EmptyString)) = Ok "6Q=="%string /\
  btoa (getIconSymbol "tsunami") = Throw InvalidCharacterError /\
  btoa (getIconSymbol "") = Throw InvalidCharacterError.
Proof. vm_compute. repeat split. Qed.

Lemma latin1_ascii_prefix (a b : string) :
  asciiOnly a = true -> latin1 b = None -> latin1 (a ++ b) = None.
Proof.
  intros Ha Hb. induction a as [|c a IH]; [exact Hb|].
  cbn [asciiOnly] in Ha. apply andb_true_iff in Ha as [Hc Ha].
  change (String c a ++ b)%string with (String c (a ++ b)).
  cbn [latin1]. cbv zeta. rewrite Hc, (IH Ha). reflexivity.
Qed.

Lemma getIconColor_ascii (severity : string) :
  asciiOnly (getIconColor severity) = true.
Proof.
  unfold getIconColor.
  repeat match goal with
         | |- context [if ?b then _ else _] => destruct b
         end; reflexivity.
Qed.

Lemma getIconSymbol_not_latin1 (hazardType : string) :
  latin1 (getIconSymbol hazardType ++ svgTail) = None.
Proof.
  unfold getIconSymbol. cbv zeta.
  repeat match goal with
         | |- context [if ?b then _ else _] => destruct b
         end; vm_compute; reflexivity.
Qed.

(** Whatever the hazard type and the severity, the SVG of the icon holds a
    symbol above U+00FF, and [btoa] throws. *)
Lemma createCustomIcon_throws (hazardType severity : string) :
  createCustomIcon hazardType severity = Throw InvalidCharacterError.
Proof.
  unfold createCustomIcon, btoa.
  rewrite (latin1_ascii_prefix svgHead); [reflexivity|reflexivity|].
  rewrite (latin1_ascii_prefix (getIconColor severity));
    [reflexivity|apply getIconColor_ascii|].
  rewrite (latin1_ascii_prefix svgMiddle); [reflexivity|reflexivity|].
  apply getIconSymbol_not_latin1.
Qed.

Lemma renderMarkers_cons (r : HazardReport) (rest : list HazardReport) :
  renderMarkers (r :: rest) = Throw InvalidCharacterError.
Proof.
  unfold renderMarkers. cbn [forEach].
  now rewrite createCustomIcon_throws.
Qed.

(** Over a sequence of renders the component keeps its state when every
    report list is empty, and is ended by the exception of the first render
    that has a report. *)
Lemma onReports_outcome (ts : JS.number -> string)
    (renders : list (list HazardReport)) (st : ComponentState) :
  onReports ts st renders
  = if allEmpty renders then Ok st else Throw InvalidCharacterError.
Proof.
  unfold onReports, allEmpty.
  induction renders as [|reports renders IH]; [reflexivity|].
  cbn [forEach forallb]. destruct reports as [|r rest].
  - cbn. exact IH.
  - rewrite renderMarkers_cons. reflexivity.
Qed.



(** X4: [createCustomIcon] throws for every hazard type and severity,
    because the SVG it hands to [btoa] always holds a symbol above U+00FF; so
    a render with a report never commits and its effect never runs. Over any
    sequence of renders the component keeps the state it had if every report
    list is empty, and is ended by the exception otherwise: no hotspot is
    ever stored. *)
Theorem markers_never_render :
  (forall hazardType severity,
      createCustomIcon hazardType severity = Throw InvalidCharacterError) /\
  renderMarkers [] = Ok [] /\
  (forall r rest, renderMarkers (r :: rest) = Throw InvalidCharacterError) /\
  (forall ts renders st,
      onReports ts st renders
      = if allEmpty renders then Ok st else Throw InvalidCharacterError) /\
  (forall ts renders st st',
      onReports ts st renders = Ok st' ->
      st' = st /\ Forall (fun reports => reports = []) renders).
Proof.
  split; [exact createCustomIcon_throws|]. split; [reflexivity|].
  split; [exact renderMarkers_cons|]. split; [exact onReports_outcome|].
  intros ts renders st st' H. rewrite onReports_outcome in H.
  destruct (allEmpty renders) eqn:E; [|discriminate].
  injection H as <-. split; [reflexivity|].
  unfold allEmpty in E. rewrite forallb_forall in E.
  apply Forall_forall. intros reports Hin. specialize (E reports Hin).
  destruct reports; [reflexivity|discriminate].
Qed.
